(** * Consent agent: a shallow embedding of [basic_agent/consent_agent/consent.py]

    The Python class [ConsentAgent] talks to three collaborators: a Firestore
    collection of consent documents, a Firestore collection of audit
    documents, and two HTTP services reached through [requests.post].  The
    embedding threads an explicit [world] through every method, and reads the
    clock and the failures of the collaborators from an [env] oracle, so that
    every path of the source (including each [except] handler) is a value that
    can be computed and compared. *)

From Stdlib Require Import ZArith Ascii.
From stdpp Require Import base option strings list gmap fin_maps.

Local Open Scope string_scope.
Local Open Scope Z_scope.

(** ** Python values and exceptions *)

(** The values a document of this program holds: [None], booleans, strings
    and [datetime] instants, counted in microseconds from [datetime.min].
    [VTime] is a naive [datetime], as [datetime.utcnow()] returns it; [VAware]
    is a timezone-aware one, as the Firestore client returns every stored
    timestamp. *)
Inductive value : Type :=
  | VNone
  | VBool (b : bool)
  | VStr (s : string)
  | VTime (t : Z)
  | VAware (t : Z).

#[global] Instance value_eq_dec : EqDecision value.
Proof. solve_decision. Defined.

(** Python truthiness, as used by [not x] and [x and y]. *)
Definition truthy (v : value) : bool :=
  match v with
  | VNone => false
  | VBool b => b
  | VStr s => negb (String.eqb s "")
  | VTime _ => true
  | VAware _ => true
  end.

Definition type_name (v : value) : string :=
  match v with
  | VNone => "NoneType"
  | VBool _ => "bool"
  | VStr _ => "str"
  | VTime _ => "datetime.datetime"
  | VAware _ => "DatetimeWithNanoseconds"
  end.

(** The subclasses of [Exception] the program meets; each carries [str(e)]. *)
Inductive exn : Type :=
  | GoogleAPICallError (msg : string)
  | ValueError (msg : string)
  | TypeError (msg : string)
  | OverflowError (msg : string)
  | RequestException (msg : string).

Definition str (e : exn) : string :=
  match e with
  | GoogleAPICallError m | ValueError m | TypeError m | OverflowError m
  | RequestException m => m
  end.

Definition is_GoogleAPICallError (e : exn) : bool :=
  match e with GoogleAPICallError _ => true | _ => false end.

Definition is_Exception (e : exn) : bool := true.

(** ** The agent, its environment and the world it acts on *)

(** The fields [__init__] reads from the process environment. *)
Record ConsentAgent : Type := {
  required_consents : list string;
  default_expiry : Z;
  DATA_DETECTIVE_SERVICE_URL : option string;
  DLP_SERVICE_URL : option string
}.

(** What the collaborators do during one call: the successive readings of
    [datetime.utcnow()], and whether a Firestore read, a consent write, an
    audit write or an HTTP post raises. *)
Record env : Type := {
  clock : nat → Z;
  get_fault : option exn;
  set_fault : option exn;
  audit_fault : option exn;
  post_fault : string → option exn
}.

Record world : Type := {
  user_consents : gmap string (gmap string value);
  consent_audit_logs : list (gmap string value);
  error_log : list string;
  posted : list (string * gmap string value);
  reads : nat
}.

Definition set_user_consents (f : gmap string (gmap string value) → gmap string (gmap string value))
    (w : world) : world :=
  {| user_consents := f (user_consents w);
     consent_audit_logs := consent_audit_logs w;
     error_log := error_log w;
     posted := posted w;
     reads := reads w |}.

Definition add_audit (d : gmap string value) (w : world) : world :=
  {| user_consents := user_consents w;
     consent_audit_logs := consent_audit_logs w ++ [d];
     error_log := error_log w;
     posted := posted w;
     reads := reads w |}.

Definition add_error (msg : string) (w : world) : world :=
  {| user_consents := user_consents w;
     consent_audit_logs := consent_audit_logs w;
     error_log := error_log w ++ [msg];
     posted := posted w;
     reads := reads w |}.

Definition add_post (url : string) (json : gmap string value) (w : world) : world :=
  {| user_consents := user_consents w;
     consent_audit_logs := consent_audit_logs w;
     error_log := error_log w;
     posted := posted w ++ [(url, json)];
     reads := reads w |}.

Definition tick (w : world) : world :=
  {| user_consents := user_consents w;
     consent_audit_logs := consent_audit_logs w;
     error_log := error_log w;
     posted := posted w;
     reads := S (reads w) |}.

(** ** A state and exception monad *)

Inductive result (A : Type) : Type :=
  | Return (a : A)
  | Raise (e : exn).
Arguments Return {A} a.
Arguments Raise {A} e.

Definition M (A : Type) : Type := world → result A * world.

#[global] Instance M_ret : MRet M := λ A a w, (Return a, w).

#[global] Instance M_bind : MBind M := λ A B f m w,
  match m w with
  | (Return a, w') => f a w'
  | (Raise e, w') => (Raise e, w')
  end.

Definition raise {A : Type} (e : exn) : M A := λ w, (Raise e, w).

(** [try: body  except C as e: handler e], where [catches] decides
    [isinstance(e, C)]. *)
Definition try_except {A : Type} (body : M A) (catches : exn → bool)
    (handler : exn → M A) : M A := λ w,
  match body w with
  | (Return a, w') => (Return a, w')
  | (Raise e, w') => if catches e then handler e w' else (Raise e, w')
  end.

(** ** The collaborators *)

(** What [doc.to_dict()] hands back for a stored value: Firestore keeps a
    [datetime] as a timestamp (a naive one is taken as UTC) and returns it
    timezone-aware. *)
Definition from_firestore (v : value) : value :=
  match v with
  | VTime t => VAware t
  | _ => v
  end.

(** [doc.to_dict()] on a stored document. *)
Definition to_dict (stored : gmap string value) : gmap string value :=
  from_firestore <$> stored.

Section Collaborators.
Variable E : env.

(** [datetime.utcnow()] *)
Definition utcnow : M Z := λ w, (Return (clock E (reads w)), tick w).

(** [self.db.collection(self.consent_collection).document(user_id).get()]
    followed by [doc.to_dict()]; [None] stands for a snapshot with
    [doc.exists] false.  The collection holds the documents as they were
    written; reading converts their values. *)
Definition doc_get (user_id : string) : M (option (gmap string value)) := λ w,
  match get_fault E with
  | Some e => (Raise e, w)
  | None => (Return (to_dict <$> user_consents w !! user_id), w)
  end.

(** [doc_ref.set(consent_data)] on the consent collection. *)
Definition doc_set (user_id : string) (d : gmap string value) : M unit := λ w,
  match set_fault E with
  | Some e => (Raise e, w)
  | None => (Return tt, set_user_consents (insert user_id d) w)
  end.

(** [audit_ref.set(...)] on a fresh document of the audit collection. *)
Definition audit_set (d : gmap string value) : M unit := λ w,
  match audit_fault E with
  | Some e => (Raise e, w)
  | None => (Return tt, add_audit d w)
  end.

(** [logging.error(msg)] *)
Definition logging_error (msg : string) : M unit := λ w, (Return tt, add_error msg w).

(** [requests.post(url, json=json)]: the call is recorded, then it may
    raise. *)
Definition requests_post (url : string) (json : gmap string value) : M unit := λ w,
  match post_fault E url with
  | Some e => (Raise e, add_post url json w)
  | None => (Return tt, add_post url json w)
  end.
End Collaborators.

(** [expiry_date < now] for a naive [datetime] right operand: defined between
    two naive instants, a [TypeError] for an aware left operand and for every
    other value. *)
Definition lt_datetime (v : value) (now : Z) : M bool :=
  match v with
  | VTime t => mret (t <? now)
  | VAware _ => raise (TypeError "can't compare offset-naive and offset-aware datetimes")
  | _ => raise (TypeError ("'<' not supported between instances of '" +:+ type_name v
                           +:+ "' and 'datetime.datetime'"))
  end.

(** [datetime.min] and [datetime.max], in microseconds from [datetime.min]:
    the years 1 to 9999 have 3652059 days. *)
Definition datetime_min : Z := 0.
Definition datetime_max : Z := 3652059 * 86400000000 - 1.

Definition representable (t : Z) : bool :=
  (datetime_min <=? t) && (t <=? datetime_max).

(** [t + delta] for a [datetime] and a [timedelta]. *)
Definition datetime_add (t delta : Z) : M Z :=
  if representable (t + delta) then mret (t + delta)
  else raise (OverflowError "date value out of range").

(** [f"{os.getenv(...)}"] *)
Definition format_env (v : option string) : string :=
  match v with Some s => s | None => "None" end.

(** ** The methods of [ConsentAgent] *)

Section Methods.
Variable self : ConsentAgent.
Variable E : env.

Definition _log_audit (user_id action : string) (success : bool) : M unit :=
  try_except
    (now ← utcnow E;
     audit_set E {[ "user_id" := VStr user_id;
                    "timestamp" := VTime now;
                    "action" := VStr action;
                    "success" := VBool success;
                    "service" := VStr "consent_agent" ]})
    is_Exception
    (λ e, logging_error ("Audit logging failed: " +:+ str e)).

Definition verify_consent (user_id data_type : string) : M bool :=
  try_except
    (doc ← doc_get E user_id;
     match doc with
     | None =>
         _log_audit user_id "No consent document found" false;;
         mret false
     | Some consent_data =>
         if negb (truthy (default (VBool false) (consent_data !! "data_processing"))) then
           _log_audit user_id "Global data processing consent missing" false;;
           mret false
         else
           let type_consent_key := data_type +:+ "_consent" in
           if match consent_data !! type_consent_key with
              | Some flag => negb (truthy flag)
              | None => false
              end
           then
             _log_audit user_id ("Specific consent denied for " +:+ data_type) false;;
             mret false
           else
             let expiry_date := default VNone (consent_data !! "expiry_date") in
             expired ← (if truthy expiry_date
                        then now ← utcnow E; lt_datetime expiry_date now
                        else mret false);
             if (expired : bool) then
               _log_audit user_id "Consent expired" false;;
               mret false
             else
               _log_audit user_id ("Valid consent for " +:+ data_type) true;;
               mret true
     end)
    is_GoogleAPICallError
    (λ e, logging_error ("Consent verification failed: " +:+ str e);;
          mret false).

(** [for consent in self.required_consents: if consent not in consents: raise ...] *)
Fixpoint validate_required (required : list string) (consents : gmap string value) : M unit :=
  match required with
  | [] => mret tt
  | consent :: rest =>
      match consents !! consent with
      | None => raise (ValueError ("Missing required consent: " +:+ consent))
      | Some _ => validate_required rest consents
      end
  end.

(** [{'user_id': ..., 'timestamp': ..., 'expiry_date': ..., **consents}]:
    the keys of [consents] win. *)
Definition consent_document (user_id : string) (timestamp expiry_date : Z)
    (consents : gmap string value) : gmap string value :=
  consents ∪ {[ "user_id" := VStr user_id;
                "timestamp" := VTime timestamp;
                "expiry_date" := VTime expiry_date ]}.

Definition register_consent (user_id : string) (consents : gmap string value) : M bool :=
  try_except
    (timestamp ← utcnow E;
     now ← utcnow E;
     expiry_date ← datetime_add now (default_expiry self);
     let consent_data := consent_document user_id timestamp expiry_date consents in
     validate_required (required_consents self) consents;;
     doc_set E user_id consent_data;;
     _log_audit user_id "New consent registered" true;;
     mret true)
    is_Exception
    (λ e, logging_error ("Consent registration failed: " +:+ str e);;
          _log_audit user_id ("Consent registration failed: " +:+ str e) false;;
          mret false).

Definition handle_data_violation (user_id data_type : string) : M unit :=
  requests_post E (format_env (DATA_DETECTIVE_SERVICE_URL self) +:+ "/block-processing")
                {[ "user_id" := VStr user_id ]};;
  if bool_decide (data_type ∈ ["email"; "phone_number"]) then
    requests_post E (format_env (DLP_SERVICE_URL self) +:+ "/redact-data")
                  {[ "user_id" := VStr user_id; "data_type" := VStr data_type ]}
  else mret tt.
End Methods.


(** ** Vocabulary of the specification, read off the code *)

(** The document [_log_audit] writes. *)
Definition audit_entry (user_id : string) (now : Z) (action : string) (success : bool)
    : gmap string value :=
  {[ "user_id" := VStr user_id;
     "timestamp" := VTime now;
     "action" := VStr action;
     "success" := VBool success;
     "service" := VStr "consent_agent" ]}.

(** The world after one call of [_log_audit]: the clock is read, then either
    the entry reaches the audit collection or the failure reaches the
    operational log. *)
Definition audit_effect (E : env) (user_id action : string) (success : bool) (w : world) : world :=
  match audit_fault E with
  | None => add_audit (audit_entry user_id (clock E (reads w)) action success) (tick w)
  | Some e => add_error ("Audit logging failed: " +:+ str e) (tick w)
  end.

(** The world in which a failed registration ends: both clock readings are
    taken, the message goes to the operational log and to the audit trail. *)
Definition registration_failed (E : env) (user_id msg : string) (w : world) : world :=
  audit_effect E user_id ("Consent registration failed: " +:+ msg) false
    (add_error ("Consent registration failed: " +:+ msg) (tick (tick w))).

(** The reason codes of a decision.  The code returns the boolean and tells
    the reason in the action text it hands to [_log_audit]. *)
Inductive reason : Type :=
  | NO_RECORD
  | GLOBAL_DENIED
  | CATEGORY_DENIED
  | EXPIRED
  | VALID.

Definition allowed (r : reason) : bool :=
  match r with VALID => true | _ => false end.

Definition reason_action (r : reason) (data_type : string) : string :=
  match r with
  | NO_RECORD => "No consent document found"
  | GLOBAL_DENIED => "Global data processing consent missing"
  | CATEGORY_DENIED => "Specific consent denied for " +:+ data_type
  | EXPIRED => "Consent expired"
  | VALID => "Valid consent for " +:+ data_type
  end.

(** A decision as the caller and the audit trail see it: one call of
    [_log_audit] with the action text of the reason, then the boolean. *)
Definition decision (E : env) (user_id data_type : string) (r : reason) : M bool :=
  _log_audit E user_id (reason_action r data_type) (allowed r);;
  mret (allowed r).

(** The three conditions [verify_consent] reads from a consent document. *)
Definition global_flag (consent_data : gmap string value) : bool :=
  truthy (default (VBool false) (consent_data !! "data_processing")).

Definition category_flag (consent_data : gmap string value) (data_type : string) : option value :=
  consent_data !! (data_type +:+ "_consent").

Definition category_denied (consent_data : gmap string value) (data_type : string) : bool :=
  match category_flag consent_data data_type with
  | Some flag => negb (truthy flag)
  | None => false
  end.

Definition expiry_date_of (consent_data : gmap string value) : value :=
  default VNone (consent_data !! "expiry_date").

(** The exception [expiry_date < datetime.utcnow()] raises when the stored
    expiry is truthy: a stored [datetime] comes back timezone-aware and does
    not compare with the naive clock reading, and nothing else compares with
    a [datetime]. *)
Definition comparison_error (stored : value) : exn :=
  match stored with
  | VTime _ | VAware _ =>
      TypeError "can't compare offset-naive and offset-aware datetimes"
  | _ => TypeError ("'<' not supported between instances of '" +:+ type_name stored
                    +:+ "' and 'datetime.datetime'")
  end.

(** The expiry [register_consent] computes in world [w]: the second clock
    reading plus the configured validity. *)
Definition computed_expiry (self : ConsentAgent) (E : env) (w : world) : Z :=
  clock E (S (reads w)) + default_expiry self.

(** The first required consent that is not a key of [consents], if any. *)
Fixpoint first_missing (required : list string) (consents : gmap string value) : option string :=
  match required with
  | [] => None
  | consent :: rest =>
      match consents !! consent with
      | None => Some consent
      | Some _ => first_missing rest consents
      end
  end.

(** The fields [register_consent] computes itself. *)
Definition computed_fields : list string := ["user_id"; "timestamp"; "expiry_date"].

Definition halt_request (self : ConsentAgent) (user_id : string) : string * gmap string value :=
  (format_env (DATA_DETECTIVE_SERVICE_URL self) +:+ "/block-processing",
   {[ "user_id" := VStr user_id ]}).

Definition redact_request (self : ConsentAgent) (user_id data_type : string)
    : string * gmap string value :=
  (format_env (DLP_SERVICE_URL self) +:+ "/redact-data",
   {[ "user_id" := VStr user_id; "data_type" := VStr data_type ]}).

Definition redactable (data_type : string) : bool :=
  bool_decide (data_type ∈ ["email"; "phone_number"]).

(** The same environment with another behaviour of the audit sink. *)
Definition with_audit_fault (E : env) (f : option exn) : env :=
  {| clock := clock E;
     get_fault := get_fault E;
     set_fault := set_fault E;
     audit_fault := f;
     post_fault := post_fault E |}.

(** ** Concrete agents, environments and worlds *)

Module Sample.

Definition agent : ConsentAgent :=
  {| required_consents := ["data_processing"];
     default_expiry := 365;
     DATA_DETECTIVE_SERVICE_URL := Some "http://detective";
     DLP_SERVICE_URL := Some "http://dlp" |}.

(** Every collaborator answers; the clock stands at [now]. *)
Definition healthy (now : Z) : env :=
  {| clock := λ _, now;
     get_fault := None;
     set_fault := None;
     audit_fault := None;
     post_fault := λ _, None |}.

(** The consent store cannot be read. *)
Definition store_down (now : Z) : env :=
  {| clock := λ _, now;
     get_fault := Some (GoogleAPICallError "503 Service Unavailable");
     set_fault := None;
     audit_fault := None;
     post_fault := λ _, None |}.

(** No HTTP service can be reached. *)
Definition network_down (now : Z) : env :=
  {| clock := λ _, now;
     get_fault := None;
     set_fault := None;
     audit_fault := None;
     post_fault := λ _, Some (RequestException "Connection refused") |}.

Definition empty_world : world :=
  {| user_consents := ∅;
     consent_audit_logs := [];
     error_log := [];
     posted := [];
     reads := 0 |}.

Definition world_with (user_id : string) (consent_data : gmap string value) : world :=
  set_user_consents (insert user_id consent_data) empty_world.

(** All flags granted, expiring at instant 100. *)
Definition granted_until_100 : gmap string value :=
  {[ "data_processing" := VBool true;
     "email_consent" := VBool true;
     "expiry_date" := VTime 100 ]}.

(** Global flag withdrawn, category flag granted. *)
Definition global_off_email_on : gmap string value :=
  {[ "data_processing" := VBool false;
     "email_consent" := VBool true;
     "expiry_date" := VTime 100 ]}.

(** A payload without the required [data_processing] key. *)
Definition marketing_only : gmap string value :=
  {[ "marketing" := VBool false ]}.

(** Two successive payloads of one user: the first withholds category [a],
    the second says nothing about it. *)
Definition first_payload : gmap string value :=
  {[ "data_processing" := VBool true; "a_consent" := VBool false ]}.

Definition second_payload : gmap string value :=
  {[ "data_processing" := VBool true; "b_consent" := VBool true ]}.

(** A payload that names the computed field [expiry_date]. *)
Definition backdated : gmap string value :=
  {[ "data_processing" := VBool true; "expiry_date" := VTime 0 ]}.

(** The world after [first_payload] was registered for user123 at instant 50. *)
Definition after_first : world :=
  snd (register_consent agent (healthy 50) "user123" first_payload empty_world).

End Sample.


(** ** Configuration read by [__init__] *)

(** [s.split(sep)] for a one-character separator: the pieces between the
    occurrences of [sep], in order; never the empty list. *)
Fixpoint split (sep : ascii) (s : string) : list string :=
  match s with
  | EmptyString => [EmptyString]
  | String c rest =>
      if Ascii.eqb c sep then EmptyString :: split sep rest
      else match split sep rest with
           | piece :: pieces => String c piece :: pieces
           | [] => [String c EmptyString]
           end
  end.

(** [sep.join(pieces)] *)
Fixpoint join (sep : ascii) (pieces : list string) : string :=
  match pieces with
  | [] => EmptyString
  | [piece] => piece
  | piece :: rest => piece +:+ String sep (join sep rest)
  end.

Fixpoint contains (sep : ascii) (s : string) : bool :=
  match s with
  | EmptyString => false
  | String c rest => Ascii.eqb c sep || contains sep rest
  end.

Fixpoint count (sep : ascii) (s : string) : nat :=
  match s with
  | EmptyString => O
  | String c rest => if Ascii.eqb c sep then S (count sep rest) else count sep rest
  end.

(** [os.getenv('REQUIRED_CONSENTS', '').split(',')], over the process
    environment as a map. *)
Definition init_required_consents (environ : gmap string string) : list string :=
  split ","%char (default "" (environ !! "REQUIRED_CONSENTS")).

(** ** The data detective: [basic_agent/deta_detection_agent/agents.py] *)

Module Detective.

Section Agent.
(** The DLP likelihood enumeration and its [str], which the program only
    passes on. *)
Variable likelihood : Type.
Variable likelihood_str : likelihood → string.

(** A DLP finding, as far as the program reads it: [f.info_type.name],
    [f.quote], [f.likelihood]. *)
Record finding : Type := {
  info_type : string;
  quote : string;
  finding_likelihood : likelihood
}.

(** One element of the ["findings"] list of a stored report. *)
Record finding_entry : Type := {
  entry_info_type : string;
  entry_quote : string;
  entry_likelihood : string
}.

Inductive sentinel : Type := SERVER_TIMESTAMP.

(** A document of the collection [privacy_scans]. *)
Record scan_report : Type := {
  report_timestamp : sentinel;
  report_findings : list finding_entry
}.

(** What the collaborators answer during one scan: the blob names of the
    bucket, the text of each blob, the findings of each text, and whether
    the write of a report raises. *)
Record denv : Type := {
  list_blobs : result (list string);
  download_as_text : string → result string;
  inspect_content : string → result (list finding);
  report_fault : string → option exn
}.

Record dworld : Type := {
  privacy_scans : gmap string scan_report;
  scan_error_log : list string;
  downloads : list string;
  inspections : list string
}.

Definition set_privacy_scans (f : gmap string scan_report → gmap string scan_report)
    (w : dworld) : dworld :=
  {| privacy_scans := f (privacy_scans w);
     scan_error_log := scan_error_log w;
     downloads := downloads w;
     inspections := inspections w |}.

Definition add_scan_error (msg : string) (w : dworld) : dworld :=
  {| privacy_scans := privacy_scans w;
     scan_error_log := (scan_error_log w ++ [msg])%list;
     downloads := downloads w;
     inspections := inspections w |}.

Definition add_download (name : string) (w : dworld) : dworld :=
  {| privacy_scans := privacy_scans w;
     scan_error_log := scan_error_log w;
     downloads := (downloads w ++ [name])%list;
     inspections := inspections w |}.

Definition add_inspection (content : string) (w : dworld) : dworld :=
  {| privacy_scans := privacy_scans w;
     scan_error_log := scan_error_log w;
     downloads := downloads w;
     inspections := (inspections w ++ [content])%list |}.

Definition DM (A : Type) : Type := dworld → result A * dworld.

#[global] Instance DM_ret : MRet DM := λ A a w, (Return a, w).

#[global] Instance DM_bind : MBind DM := λ A B f m w,
  match m w with
  | (Return a, w') => f a w'
  | (Raise e, w') => (Raise e, w')
  end.

(** [try: body  except Exception as e: handler e] *)
Definition try_except_Exception {A : Type} (body : DM A) (handler : exn → DM A) : DM A := λ w,
  match body w with
  | (Return a, w') => (Return a, w')
  | (Raise e, w') => handler e w'
  end.

Variable E : denv.

(** [self.storage_client.get_bucket(self.bucket_name).list_blobs()], as the
    names of the blobs. *)
Definition get_bucket_blobs : DM (list string) := λ w, (list_blobs E, w).

(** [blob.download_as_text()] *)
Definition blob_download (name : string) : DM string := λ w,
  (download_as_text E name, add_download name w).

(** [name.endswith(suffix)] *)
Fixpoint endswith (name suffix : string) : bool :=
  String.eqb name suffix
  || match name with
     | EmptyString => false
     | String _ rest => endswith rest suffix
     end.

(** [blob.name.endswith(('.txt', '.csv', '.json'))] *)
Definition scannable (name : string) : bool :=
  existsb (endswith name) [".txt"; ".csv"; ".json"].

Definition _inspect_content (content : string) : DM (list finding) := λ w,
  (inspect_content E content, add_inspection content w).

Definition report_of (findings : list finding) : scan_report :=
  {| report_timestamp := SERVER_TIMESTAMP;
     report_findings :=
       map (λ f, {| entry_info_type := info_type f;
                    entry_quote := quote f;
                    entry_likelihood := likelihood_str (finding_likelihood f) |})
           findings |}.

Definition _log_findings (filename : string) (findings : list finding) : DM unit := λ w,
  match report_fault E filename with
  | Some e => (Raise e, w)
  | None => (Return tt, set_privacy_scans (insert filename (report_of findings)) w)
  end.

Definition _check_consent (findings : list finding) : DM unit := mret tt.

(** The body of [for blob in blobs: ...]. *)
Definition scan_blob (name : string) : DM unit :=
  if scannable name then
    content ← blob_download name;
    findings ← _inspect_content content;
    match findings with
    | [] => mret tt
    | _ :: _ => _log_findings name findings;; _check_consent findings
    end
  else mret tt.

Fixpoint scan_blobs (blobs : list string) : DM unit :=
  match blobs with
  | [] => mret tt
  | name :: rest => scan_blob name;; scan_blobs rest
  end.

Definition scan_bucket : DM unit :=
  try_except_Exception
    (blobs ← get_bucket_blobs; scan_blobs blobs)
    (λ e, λ w, (Return tt, add_scan_error ("Scan failed: " +:+ str e) w)).

(** The findings the classifier returns for a blob, when both the download
    and the inspection answer. *)
Definition findings_of (name : string) : option (list finding) :=
  match download_as_text E name with
  | Return content =>
      match inspect_content E content with
      | Return findings => Some findings
      | Raise _ => None
      end
  | Raise _ => None
  end.

(** Every step on a blob answers: download, inspection and, when there are
    findings, the write of the report. *)
Definition blob_healthy (name : string) : Prop :=
  scannable name = true →
  ∃ findings, findings_of name = Some findings
              ∧ (findings ≠ [] → report_fault E name = None).

(** The report a scan of [blobs] writes under [name], if it writes one. *)
Definition reported (blobs : list string) (name : string) : option scan_report :=
  if bool_decide (name ∈ blobs) && scannable name then
    match findings_of name with
    | Some (f :: fs) => Some (report_of (f :: fs))
    | _ => None
    end
  else None.

End Agent.

Arguments info_type {likelihood} f.
Arguments quote {likelihood} f.
Arguments finding_likelihood {likelihood} f.
Arguments list_blobs {likelihood} d.
Arguments download_as_text {likelihood} d _.
Arguments inspect_content {likelihood} d _.
Arguments report_fault {likelihood} d _.

End Detective.

(** ** More concrete agents and worlds *)

Module SampleMore.

(** The agent of a process without [REQUIRED_CONSENTS]. *)
Definition unconfigured : ConsentAgent :=
  {| required_consents := init_required_consents ∅;
     default_expiry := 365;
     DATA_DETECTIVE_SERVICE_URL := None;
     DLP_SERVICE_URL := None |}.

(** The payload of the example in [__main__]. *)
Definition example_payload : gmap string value :=
  {[ "data_processing" := VBool true;
     "marketing" := VBool false;
     "third_party_sharing" := VBool true ]}.

(** The consent store cannot be written. *)
Definition write_down (now : Z) : env :=
  {| clock := λ _, now;
     get_fault := None;
     set_fault := Some (GoogleAPICallError "503 Service Unavailable");
     audit_fault := None;
     post_fault := λ _, None |}.

(** The lookup fails with an error that is no [GoogleAPICallError]. *)
Definition lookup_times_out (now : Z) : env :=
  {| clock := λ _, now;
     get_fault := Some (RequestException "Read timed out");
     set_fault := None;
     audit_fault := None;
     post_fault := λ _, None |}.

(** A record whose expiry is the boolean [True]. *)
Definition expiry_is_bool : gmap string value :=
  {[ "data_processing" := VBool true; "expiry_date" := VBool true ]}.

(** A record that withholds the global flag but is otherwise complete. *)
Definition global_withheld : gmap string value :=
  {[ "data_processing" := VBool false; "email_consent" := VBool true ]}.

(** DLP likelihoods as small numbers, printed in decimal. *)
Definition likelihood_str (l : nat) : string :=
  match l with
  | O => "0" | 1%nat => "1" | 2%nat => "2" | 3%nat => "3" | 4%nat => "4" | _ => "5"
  end.

Definition an_email : Detective.finding nat :=
  {| Detective.info_type := "EMAIL_ADDRESS";
     Detective.quote := "a@b.c";
     Detective.finding_likelihood := 4%nat |}.

(** A bucket with a text file holding an address, a picture, and an empty
    table. *)
Definition bucket_env : Detective.denv nat :=
  {| Detective.list_blobs := Return ["notes.txt"; "photo.png"; "table.csv"];
     Detective.download_as_text := λ name,
       if String.eqb name "notes.txt" then Return "mail a@b.c" else Return "";
     Detective.inspect_content := λ content,
       if String.eqb content "mail a@b.c" then Return [an_email] else Return [];
     Detective.report_fault := λ _, None |}.

(** The same bucket when the first download fails. *)
Definition failing_bucket_env : Detective.denv nat :=
  {| Detective.list_blobs := Return ["notes.txt"; "photo.png"; "table.csv"];
     Detective.download_as_text := λ name,
       if String.eqb name "notes.txt" then Raise (RequestException "Connection reset")
       else Return "";
     Detective.inspect_content := λ _, Return [];
     Detective.report_fault := λ _, None |}.



(** All flags granted, no expiry stored. *)
Definition granted_forever : gmap string value :=
  {[ "data_processing" := VBool true; "email_consent" := VBool true ]}.

Definition fresh : Detective.dworld :=
  {| Detective.privacy_scans := ∅;
     Detective.scan_error_log := [];
     Detective.downloads := [];
     Detective.inspections := [] |}.

End SampleMore.


(** ** Running the methods *)

Ltac unfold_monad :=
  unfold try_except, mbind, M_bind, mret, M_ret, raise in *.

Lemma log_audit_run (E : env) (user_id action : string) (success : bool) (w : world) :
  _log_audit E user_id action success w
  = (Return tt, audit_effect E user_id action success w).
Proof.
  unfold _log_audit, audit_effect, audit_entry, utcnow, audit_set, logging_error.
  unfold_monad. simpl.
  destruct (audit_fault E) as [e|]; reflexivity.
Qed.

Lemma decision_run (E : env) (user_id data_type : string) (r : reason) (w : world) :
  decision E user_id data_type r w
  = (Return (allowed r), audit_effect E user_id (reason_action r data_type) (allowed r) w).
Proof.
  unfold decision. unfold_monad. rewrite log_audit_run. reflexivity.
Qed.

Lemma truthy_from_firestore (v : value) : truthy (from_firestore v) = truthy v.
Proof. destruct v; reflexivity. Qed.

Lemma lookup_to_dict (stored : gmap string value) (k : string) :
  to_dict stored !! k = from_firestore <$> stored !! k.
Proof. unfold to_dict. apply lookup_fmap. Qed.

Lemma global_flag_to_dict (stored : gmap string value) :
  global_flag (to_dict stored) = global_flag stored.
Proof.
  unfold global_flag. rewrite lookup_to_dict.
  destruct (stored !! "data_processing") as [v|]; simpl;
    [apply truthy_from_firestore | reflexivity].
Qed.

Lemma category_denied_to_dict (stored : gmap string value) (data_type : string) :
  category_denied (to_dict stored) data_type = category_denied stored data_type.
Proof.
  unfold category_denied, category_flag. rewrite lookup_to_dict.
  destruct (stored !! (data_type +:+ "_consent")) as [v|]; simpl;
    [rewrite truthy_from_firestore|]; reflexivity.
Qed.

Lemma expiry_date_of_to_dict (stored : gmap string value) :
  expiry_date_of (to_dict stored) = from_firestore (expiry_date_of stored).
Proof.
  unfold expiry_date_of. rewrite lookup_to_dict.
  destruct (stored !! "expiry_date"); reflexivity.
Qed.

Lemma lt_datetime_read_back (v : value) (now : Z) (w : world) :
  truthy v = true →
  lt_datetime (from_firestore v) now w = (Raise (comparison_error v), w).
Proof. destruct v; simpl; intros H; try discriminate H; reflexivity. Qed.

Lemma comparison_error_kind (v : value) :
  is_GoogleAPICallError (comparison_error v) = false.
Proof. destruct v; reflexivity. Qed.

Lemma verify_consent_run (E : env) (user_id data_type : string) (w : world) :
  verify_consent E user_id data_type w =
  match get_fault E with
  | Some e =>
      if is_GoogleAPICallError e
      then (Return false, add_error ("Consent verification failed: " +:+ str e) w)
      else (Raise e, w)
  | None =>
      match user_consents w !! user_id with
      | None => decision E user_id data_type NO_RECORD w
      | Some consent_data =>
          if negb (global_flag consent_data) then decision E user_id data_type GLOBAL_DENIED w
          else if category_denied consent_data data_type
          then decision E user_id data_type CATEGORY_DENIED w
          else if truthy (expiry_date_of consent_data)
          then (Raise (comparison_error (expiry_date_of consent_data)), tick w)
          else decision E user_id data_type VALID w
      end
  end.
Proof.
  unfold verify_consent, doc_get.
  unfold try_except at 1. unfold mbind at 1. unfold M_bind at 1.
  destruct (get_fault E) as [e|].
  { destruct (is_GoogleAPICallError e); [|reflexivity].
    unfold logging_error. unfold_monad. reflexivity. }
  destruct (user_consents w !! user_id) as [consent_data|]; simpl.
  2:{ rewrite decision_run. unfold_monad. rewrite log_audit_run. reflexivity. }
  fold (global_flag (to_dict consent_data)).
  fold (category_flag (to_dict consent_data) data_type).
  fold (category_denied (to_dict consent_data) data_type).
  fold (expiry_date_of (to_dict consent_data)).
  rewrite global_flag_to_dict, category_denied_to_dict, expiry_date_of_to_dict,
    truthy_from_firestore.
  destruct (global_flag consent_data); simpl.
  2:{ rewrite decision_run. unfold_monad. rewrite log_audit_run. reflexivity. }
  destruct (category_denied consent_data data_type).
  { rewrite decision_run. unfold_monad. rewrite log_audit_run. reflexivity. }
  destruct (truthy (expiry_date_of consent_data)) eqn:Htruthy.
  - unfold utcnow. unfold_monad. rewrite lt_datetime_read_back by exact Htruthy.
    rewrite comparison_error_kind. reflexivity.
  - rewrite decision_run. unfold_monad. rewrite log_audit_run. reflexivity.
Qed.

Lemma validate_required_run (required : list string) (consents : gmap string value) (w : world) :
  validate_required required consents w =
  match first_missing required consents with
  | Some consent => (Raise (ValueError ("Missing required consent: " +:+ consent)), w)
  | None => (Return tt, w)
  end.
Proof.
  induction required as [|consent rest IH]; simpl; [reflexivity|].
  destruct (consents !! consent); [exact IH | reflexivity].
Qed.

Lemma first_missing_None (required : list string) (consents : gmap string value) :
  first_missing required consents = None ↔
  ∀ consent, consent ∈ required → is_Some (consents !! consent).
Proof.
  induction required as [|c rest IH]; simpl.
  - split; [intros _ x Hx; inversion Hx | reflexivity].
  - destruct (consents !! c) as [v|] eqn:Hc.
    + rewrite IH. split.
      * intros H x Hx. apply elem_of_cons in Hx as [->|Hx]; [rewrite Hc; eauto | auto].
      * intros H x Hx. apply H. apply elem_of_cons. auto.
    + split; [discriminate|].
      intros H. destruct (H c) as [v Hv]; [apply elem_of_cons; auto|]. congruence.
Qed.



Lemma register_consent_run (self : ConsentAgent) (E : env) (user_id : string)
    (consents : gmap string value) (w : world) :
  register_consent self E user_id consents w =
  if representable (computed_expiry self E w) then
    match first_missing (required_consents self) consents with
    | Some consent =>
        (Return false,
         registration_failed E user_id ("Missing required consent: " +:+ consent) w)
    | None =>
        match set_fault E with
        | Some e => (Return false, registration_failed E user_id (str e) w)
        | None =>
            (Return true,
             audit_effect E user_id "New consent registered" true
               (set_user_consents
                  (insert user_id
                     (consent_document user_id (clock E (reads w))
                        (computed_expiry self E w) consents))
                  (tick (tick w))))
        end
    end
  else (Return false, registration_failed E user_id "date value out of range" w).
Proof.
  unfold register_consent, registration_failed, computed_expiry, utcnow, datetime_add,
    doc_set, logging_error.
  unfold_monad. simpl.
  destruct (representable (clock E (S (reads w)) + default_expiry self)); simpl.
  2:{ rewrite log_audit_run. reflexivity. }
  rewrite validate_required_run.
  destruct (first_missing (required_consents self) consents) as [consent|]; simpl.
  { rewrite log_audit_run. reflexivity. }
  destruct (set_fault E) as [e|]; simpl; rewrite log_audit_run; reflexivity.
Qed.

Lemma handle_data_violation_run (self : ConsentAgent) (E : env) (user_id data_type : string)
    (w : world) :
  handle_data_violation self E user_id data_type w =
  let w1 := add_post (fst (halt_request self user_id)) (snd (halt_request self user_id)) w in
  match post_fault E (fst (halt_request self user_id)) with
  | Some e => (Raise e, w1)
  | None =>
      if redactable data_type
      then requests_post E (fst (redact_request self user_id data_type))
             (snd (redact_request self user_id data_type)) w1
      else (Return tt, w1)
  end.
Proof.
  unfold handle_data_violation, halt_request, redact_request, redactable. simpl.
  unfold mbind, M_bind. unfold requests_post at 1.
  destruct (post_fault E _) as [e|]; [reflexivity|].
  destruct (bool_decide _); reflexivity.
Qed.

(** Effects of one audit call on the parts of the world it does not own. *)
Lemma audit_effect_user_consents (E : env) (u a : string) (s : bool) (w : world) :
  user_consents (audit_effect E u a s w) = user_consents w.
Proof. unfold audit_effect. destruct (audit_fault E); reflexivity. Qed.

Lemma audit_effect_reads (E : env) (u a : string) (s : bool) (w : world) :
  reads (audit_effect E u a s w) = S (reads w).
Proof. unfold audit_effect. destruct (audit_fault E); reflexivity. Qed.

Lemma audit_effect_posted (E : env) (u a : string) (s : bool) (w : world) :
  posted (audit_effect E u a s w) = posted w.
Proof. unfold audit_effect. destruct (audit_fault E); reflexivity. Qed.

Lemma audit_effect_healthy (E : env) (u a : string) (s : bool) (w : world) :
  audit_fault E = None →
  consent_audit_logs (audit_effect E u a s w)
  = (consent_audit_logs w ++ [audit_entry u (clock E (reads w)) a s])%list.
Proof. unfold audit_effect. intros ->. reflexivity. Qed.


(** ** The policy evaluator: [verify_consent] *)

(** C1.  What [verify_consent] does when the lookup succeeds.  The first
    three rules apply in the order no record, global flag, category flag and
    stop at the first that fails: without a record the decision is
    DENY/NO_RECORD; with a global flag that is not granted it is
    DENY/GLOBAL_DENIED whatever the category flag says; otherwise a category
    flag that is present and not granted gives DENY/CATEGORY_DENIED, and an
    absent category flag is no denial.  A record that passes these rules and
    stores no (or a falsy) expiry is decided ALLOW/VALID.  The expiry rule
    itself is never decided: for every truthy stored expiry, a stored
    [datetime] in particular, the comparison with the naive clock reading
    raises [TypeError], which leaves the call unaudited and unlogged, so the
    claimed DENY/EXPIRED and ALLOW/VALID for a record with an expiry are not
    returned. *)
Theorem verify_consent_rule_order (E : env) (user_id data_type : string) (w : world) :
  get_fault E = None →
  (user_consents w !! user_id = None →
     verify_consent E user_id data_type w = decision E user_id data_type NO_RECORD w)
  ∧ (∀ consent_data, user_consents w !! user_id = Some consent_data →
       (global_flag consent_data = false →
          verify_consent E user_id data_type w
          = decision E user_id data_type GLOBAL_DENIED w)
       ∧ (global_flag consent_data = true →
          category_denied consent_data data_type = true →
          verify_consent E user_id data_type w
          = decision E user_id data_type CATEGORY_DENIED w)
       ∧ (category_flag consent_data data_type = None →
          category_denied consent_data data_type = false)
       ∧ (global_flag consent_data = true →
          category_denied consent_data data_type = false →
          truthy (expiry_date_of consent_data) = false →
          verify_consent E user_id data_type w
          = decision E user_id data_type VALID w)
       ∧ (global_flag consent_data = true →
          category_denied consent_data data_type = false →
          truthy (expiry_date_of consent_data) = true →
          verify_consent E user_id data_type w
          = (Raise (comparison_error (expiry_date_of consent_data)), tick w))
       ∧ (∀ t, expiry_date_of consent_data = VTime t ∨ expiry_date_of consent_data = VAware t →
          comparison_error (expiry_date_of consent_data)
          = TypeError "can't compare offset-naive and offset-aware datetimes")).
Proof.
  intros Hget. split.
  - intros Hnone. rewrite verify_consent_run, Hget, Hnone. reflexivity.
  - intros consent_data Hsome.
    repeat split.
    + intros Hg. rewrite verify_consent_run, Hget, Hsome, Hg. reflexivity.
    + intros Hg Hc. rewrite verify_consent_run, Hget, Hsome, Hg, Hc. reflexivity.
    + intros Hnone. unfold category_denied. rewrite Hnone. reflexivity.
    + intros Hg Hc Hf. rewrite verify_consent_run, Hget, Hsome, Hg, Hc, Hf. reflexivity.
    + intros Hg Hc Ht. rewrite verify_consent_run, Hget, Hsome, Hg, Hc, Ht. reflexivity.
    + intros t [-> | ->]; reflexivity.
Qed.

(** The scenario of the specification: a record that grants the global and
    the email flag and expires at instant 100, asked about at instant 50.
    The call raises instead of allowing, and nothing is audited. *)
Lemma verify_consent_rule_order_witness :
  verify_consent (Sample.healthy 50) "user123" "email"
    (Sample.world_with "user123" Sample.granted_until_100)
  = (Raise (TypeError "can't compare offset-naive and offset-aware datetimes"),
     tick (Sample.world_with "user123" Sample.granted_until_100)).
Proof.
  destruct (verify_consent_rule_order (Sample.healthy 50) "user123" "email"
              (Sample.world_with "user123" Sample.granted_until_100) eq_refl)
    as [_ Hrec].
  destruct (Hrec Sample.granted_until_100) as (_ & _ & _ & _ & Hraise & _).
  - vm_compute. reflexivity.
  - rewrite Hraise; vm_compute; reflexivity.
Defined.

(** C2, as stated, fails.  With the consent store unreachable the call
    raises nothing: it returns [False], the very value it returns for the
    DENY/NO_RECORD decision of a reachable, empty store, and the audit
    collection stays empty. *)
Lemma verify_consent_store_down_counterexample :
  fst (verify_consent (Sample.store_down 50) "user123" "email" Sample.empty_world)
  = Return false
  ∧ fst (verify_consent (Sample.store_down 50) "user123" "email" Sample.empty_world)
    = fst (verify_consent (Sample.healthy 50) "user123" "email" Sample.empty_world)
  ∧ consent_audit_logs
      (snd (verify_consent (Sample.store_down 50) "user123" "email" Sample.empty_world))
    = [].
Proof. vm_compute. repeat split; reflexivity. Qed.

(** C2, amended.  When the lookup raises [GoogleAPICallError], the handler of
    [verify_consent] swallows it: the caller gets [False], no exception, and
    the message of the error is appended to the operational log. *)
Theorem verify_consent_store_failure (E : env) (user_id data_type msg : string) (w : world) :
  get_fault E = Some (GoogleAPICallError msg) →
  fst (verify_consent E user_id data_type w) = Return false
  ∧ error_log (snd (verify_consent E user_id data_type w))
    = (error_log w ++ ["Consent verification failed: " +:+ msg])%list
  ∧ user_consents (snd (verify_consent E user_id data_type w)) = user_consents w.
Proof.
  intros Hget. rewrite verify_consent_run, Hget. simpl. repeat split.
Qed.

Lemma verify_consent_store_failure_witness :
  fst (verify_consent (Sample.store_down 50) "user123" "email" Sample.empty_world)
  = Return false
  ∧ error_log (snd (verify_consent (Sample.store_down 50) "user123" "email"
                      Sample.empty_world))
    = ["Consent verification failed: 503 Service Unavailable"]
  ∧ user_consents (snd (verify_consent (Sample.store_down 50) "user123" "email"
                          Sample.empty_world))
    = ∅.
Proof.
  exact (verify_consent_store_failure (Sample.store_down 50) "user123" "email"
           "503 Service Unavailable" Sample.empty_world eq_refl).
Defined.

(** C3.  The expiry rule on a stored timestamp.  For a record that passes
    the global and the category rule and stores a [datetime] as expiry, the
    call raises [TypeError] at every clock reading, before, at and after the
    expiry: the timestamp comes back timezone-aware and [datetime.utcnow()]
    is naive.  No decision is returned and nothing is audited or logged, so
    DENY/EXPIRED is not returned for an expired record.  The comparison the
    code writes is moreover strict: between two naive instants
    [expiry_date < now] is false when they are equal. *)
Theorem verify_consent_expiry_raises (E : env) (user_id data_type : string) (w : world)
    (consent_data : gmap string value) (t : Z) :
  get_fault E = None →
  user_consents w !! user_id = Some consent_data →
  global_flag consent_data = true →
  category_denied consent_data data_type = false →
  consent_data !! "expiry_date" = Some (VTime t) →
  verify_consent E user_id data_type w
  = (Raise (TypeError "can't compare offset-naive and offset-aware datetimes"), tick w)
  ∧ consent_audit_logs (snd (verify_consent E user_id data_type w)) = consent_audit_logs w
  ∧ error_log (snd (verify_consent E user_id data_type w)) = error_log w
  ∧ lt_datetime (VTime t) t w = (Return false, w).
Proof.
  intros Hget Hsome Hg Hc Hexp.
  assert (Ht : expiry_date_of consent_data = VTime t)
    by (unfold expiry_date_of; rewrite Hexp; reflexivity).
  rewrite verify_consent_run, Hget, Hsome, Hg, Hc, Ht. simpl.
  repeat split. unfold lt_datetime, mret, M_ret. rewrite Z.ltb_irrefl. reflexivity.
Qed.

(** The record expires at instant 100 and the clock stands at 200. *)
Lemma verify_consent_expiry_raises_witness :
  verify_consent (Sample.healthy 200) "user123" "email"
    (Sample.world_with "user123" Sample.granted_until_100)
  = (Raise (TypeError "can't compare offset-naive and offset-aware datetimes"),
     tick (Sample.world_with "user123" Sample.granted_until_100)).
Proof.
  refine (proj1 (verify_consent_expiry_raises (Sample.healthy 200) "user123" "email"
                   (Sample.world_with "user123" Sample.granted_until_100)
                   Sample.granted_until_100 100 eq_refl _ _ _ _)).
  - vm_compute. reflexivity.
  - vm_compute. reflexivity.
  - vm_compute. reflexivity.
  - vm_compute. reflexivity.
Defined.

(** Whenever the lookup succeeds and the call returns a boolean, it has
    ended in a decision, that is in exactly one call of [_log_audit]. *)
Lemma verify_consent_audits_once (E : env) (user_id data_type : string) (w : world)
    (b : bool) :
  get_fault E = None →
  fst (verify_consent E user_id data_type w) = Return b →
  ∃ r, verify_consent E user_id data_type w = decision E user_id data_type r w
       ∧ allowed r = b.
Proof.
  intros Hget. rewrite verify_consent_run, Hget.
  destruct (user_consents w !! user_id) as [consent_data|];
    [|rewrite decision_run; intros [= <-]; exists NO_RECORD; rewrite decision_run; auto].
  destruct (negb (global_flag consent_data));
    [rewrite decision_run; intros [= <-]; exists GLOBAL_DENIED; rewrite decision_run; auto|].
  destruct (category_denied consent_data data_type);
    [rewrite decision_run; intros [= <-]; exists CATEGORY_DENIED; rewrite decision_run;
     auto|].
  destruct (truthy (expiry_date_of consent_data)); [discriminate|].
  rewrite decision_run; intros [= <-]; exists VALID; rewrite decision_run; auto.
Qed.

(** C4, on the failing path.  When the lookup raises [GoogleAPICallError],
    [verify_consent] returns [False] after a single write to the operational
    log: [_log_audit] is not called and the audit collection is unchanged. *)
Theorem verify_consent_store_failure_not_audited
    (now : nat → Z) (sf af : option exn) (pf : string → option exn)
    (user_id data_type msg : string) (w : world) :
  verify_consent
    {| clock := now; get_fault := Some (GoogleAPICallError msg); set_fault := sf;
       audit_fault := af; post_fault := pf |}
    user_id data_type w
  = (Return false, add_error ("Consent verification failed: " +:+ msg) w)
  ∧ consent_audit_logs
      (snd (verify_consent
              {| clock := now; get_fault := Some (GoogleAPICallError msg); set_fault := sf;
                 audit_fault := af; post_fault := pf |}
              user_id data_type w))
    = consent_audit_logs w.
Proof.
  rewrite verify_consent_run. simpl. split; reflexivity.
Qed.


(** ** Registration: [register_consent] *)

(** A category flag never lives under one of the computed field names. *)
Lemma category_key_not_computed (data_type : string) :
  data_type +:+ "_consent" ∉ computed_fields.
Proof.
  unfold computed_fields. intros Hin.
  repeat (apply elem_of_cons in Hin as [Hin|Hin]);
    [ | | | inversion Hin ];
    repeat (destruct data_type as [|? data_type]; simpl in Hin; try discriminate;
            injection Hin as _ Hin).
Qed.

Lemma consent_document_lookup_supplied (user_id : string) (timestamp expiry_date : Z)
    (consents : gmap string value) (k : string) (v : value) :
  consents !! k = Some v →
  consent_document user_id timestamp expiry_date consents !! k = Some v.
Proof.
  intros Hk. unfold consent_document. apply lookup_union_Some_l. exact Hk.
Qed.

Lemma consent_document_lookup_absent (user_id : string) (timestamp expiry_date : Z)
    (consents : gmap string value) (k : string) :
  consents !! k = None →
  consent_document user_id timestamp expiry_date consents !! k
  = ({[ "user_id" := VStr user_id;
        "timestamp" := VTime timestamp;
        "expiry_date" := VTime expiry_date ]} : gmap string value) !! k.
Proof.
  intros Hk. unfold consent_document. rewrite lookup_union_r; [reflexivity | exact Hk].
Qed.

Lemma consent_document_lookup_other (user_id : string) (timestamp expiry_date : Z)
    (consents : gmap string value) (k : string) :
  consents !! k = None → k ∉ computed_fields →
  consent_document user_id timestamp expiry_date consents !! k = None.
Proof.
  intros Hk Hnot. rewrite consent_document_lookup_absent by exact Hk.
  unfold computed_fields in Hnot.
  assert (H1 : "user_id" ≠ k) by (intros <-; apply Hnot; repeat constructor).
  assert (H2 : "timestamp" ≠ k) by (intros <-; apply Hnot; repeat constructor).
  assert (H3 : "expiry_date" ≠ k) by (intros <-; apply Hnot; repeat constructor).
  rewrite !lookup_insert_ne by assumption. apply lookup_singleton_ne. assumption.
Qed.

(** What a successful registration leaves in the world. *)
Lemma register_consent_success (self : ConsentAgent) (E : env) (user_id : string)
    (consents : gmap string value) (w : world) :
  representable (computed_expiry self E w) = true →
  set_fault E = None →
  (∀ consent, consent ∈ required_consents self → is_Some (consents !! consent)) →
  fst (register_consent self E user_id consents w) = Return true
  ∧ user_consents (snd (register_consent self E user_id consents w))
    = <[user_id := consent_document user_id (clock E (reads w)) (computed_expiry self E w)
                     consents]> (user_consents w).
Proof.
  intros Hrange Hset Hreq. apply first_missing_None in Hreq.
  rewrite register_consent_run, Hrange, Hreq, Hset. simpl.
  rewrite audit_effect_user_consents. split; reflexivity.
Qed.

(** What follows from a registration that returned [True]. *)
Lemma register_consent_success_inv (self : ConsentAgent) (E : env) (user_id : string)
    (consents : gmap string value) (w : world) :
  fst (register_consent self E user_id consents w) = Return true →
  representable (computed_expiry self E w) = true
  ∧ (∀ consent, consent ∈ required_consents self → is_Some (consents !! consent))
  ∧ set_fault E = None
  ∧ user_consents (snd (register_consent self E user_id consents w))
    = <[user_id := consent_document user_id (clock E (reads w)) (computed_expiry self E w)
                     consents]> (user_consents w).
Proof.
  rewrite register_consent_run.
  destruct (representable (computed_expiry self E w)); [|discriminate].
  destruct (first_missing (required_consents self) consents) as [missing|] eqn:Hfirst;
    [discriminate|].
  destruct (set_fault E) as [e|]; [discriminate|].
  intros _. simpl. rewrite audit_effect_user_consents.
  split; [reflexivity|]. split; [apply first_missing_None; exact Hfirst|].
  split; reflexivity.
Qed.

Lemma registration_failed_frame (E : env) (user_id msg : string) (w : world) :
  user_consents (registration_failed E user_id msg w) = user_consents w
  ∧ "Consent registration failed: " +:+ msg ∈ error_log (registration_failed E user_id msg w).
Proof.
  unfold registration_failed. rewrite audit_effect_user_consents.
  split; [reflexivity|].
  unfold audit_effect. destruct (audit_fault E); simpl.
  - apply elem_of_app. left. apply elem_of_app. right. constructor.
  - apply elem_of_app. right. constructor.
Qed.




(** C6.  A successful registration for a user who already has a record
    replaces that record wholesale.  The stored document is the new payload,
    key by key, completed by the computed fields the payload does not name,
    and nothing else: every other key, those of the old record included, is
    absent.  In particular a category without a flag in the new payload has
    no explicit flag afterwards and is not denied by the category rule,
    whatever the old record said. *)
Theorem register_consent_replaces (self : ConsentAgent) (E : env) (user_id : string)
    (consents old : gmap string value) (w : world) :
  user_consents w !! user_id = Some old →
  fst (register_consent self E user_id consents w) = Return true →
  ∃ new,
    user_consents (snd (register_consent self E user_id consents w)) !! user_id = Some new
    ∧ (∀ k v, consents !! k = Some v → new !! k = Some v)
    ∧ (consents !! "user_id" = None → new !! "user_id" = Some (VStr user_id))
    ∧ (consents !! "timestamp" = None →
       new !! "timestamp" = Some (VTime (clock E (reads w))))
    ∧ (consents !! "expiry_date" = None →
       new !! "expiry_date" = Some (VTime (computed_expiry self E w)))
    ∧ (∀ k, consents !! k = None → k ∉ computed_fields → new !! k = None)
    ∧ (∀ k, is_Some (old !! k) → consents !! k = None → k ∉ computed_fields →
         new !! k = None)
    ∧ (∀ data_type, category_flag consents data_type = None →
         category_flag new data_type = None ∧ category_denied new data_type = false).
Proof.
  intros _ Hret.
  destruct (register_consent_success_inv self E user_id consents w Hret)
    as (_ & _ & _ & Hstore).
  eexists. split; [rewrite Hstore; apply lookup_insert_eq|].
  split; [intros k v Hk; apply consent_document_lookup_supplied; exact Hk|].
  split; [intros Hk; rewrite consent_document_lookup_absent by exact Hk; reflexivity|].
  split; [intros Hk; rewrite consent_document_lookup_absent by exact Hk; reflexivity|].
  split; [intros Hk; rewrite consent_document_lookup_absent by exact Hk; reflexivity|].
  split; [intros k Hk Hnot; apply consent_document_lookup_other; assumption|].
  split; [intros k _ Hk Hnot; apply consent_document_lookup_other; assumption|].
  intros data_type Hflag. unfold category_flag in Hflag.
  assert (Hnew : category_flag
                   (consent_document user_id (clock E (reads w))
                      (computed_expiry self E w) consents) data_type = None).
  { unfold category_flag. apply consent_document_lookup_other;
      [exact Hflag | apply category_key_not_computed]. }
  split; [exact Hnew|]. unfold category_denied. rewrite Hnew. reflexivity.
Qed.

(** Registering [first_payload] and then [second_payload]: the new flag of
    category [b] is stored and the refusal of category [a] held by the first
    record is gone. *)
Lemma register_consent_replaces_witness :
  category_flag Sample.first_payload "a" = Some (VBool false)
  ∧ ∃ new,
      user_consents
        (snd (register_consent Sample.agent (Sample.healthy 60) "user123"
                Sample.second_payload Sample.after_first)) !! "user123" = Some new
      ∧ category_flag new "b" = Some (VBool true)
      ∧ category_flag new "a" = None
      ∧ category_denied new "a" = false.
Proof.
  split; [vm_compute; reflexivity|].
  destruct (register_consent_replaces Sample.agent (Sample.healthy 60) "user123"
              Sample.second_payload
              (consent_document "user123" 50 415 Sample.first_payload)
              Sample.after_first)
    as (new & Hnew & Hpayload & _ & _ & _ & _ & _ & Hcat).
  - vm_compute. reflexivity.
  - vm_compute. reflexivity.
  - exists new. split; [exact Hnew|].
    split; [apply Hpayload; vm_compute; reflexivity|].
    apply Hcat. vm_compute. reflexivity.
Defined.

(** After the first registration the evaluator denies category [a]; after
    the second no rule denies it any more, and the call runs into the expiry
    comparison, which raises. *)
Example verify_after_replacement :
  fst (verify_consent (Sample.healthy 55) "user123" "a" Sample.after_first)
  = Return false
  ∧ fst (verify_consent (Sample.healthy 70) "user123" "a"
           (snd (register_consent Sample.agent (Sample.healthy 60) "user123"
                   Sample.second_payload Sample.after_first)))
    = Raise (TypeError "can't compare offset-naive and offset-aware datetimes").
Proof. vm_compute. split; reflexivity. Qed.

(** C7, as stated, fails.  The payload [backdated] carries its own
    [expiry_date]; registered at instant 100 with a default validity of 365, the
    stored record expires at instant 0, which is neither 100 + 365 nor later
    than its timestamp 100. *)
Lemma register_consent_expiry_counterexample :
  fst (register_consent Sample.agent (Sample.healthy 100) "user123" Sample.backdated
         Sample.empty_world) = Return true
  ∧ ∃ stored t_expiry t_stamp,
      user_consents
        (snd (register_consent Sample.agent (Sample.healthy 100) "user123" Sample.backdated
                Sample.empty_world)) !! "user123" = Some stored
      ∧ stored !! "timestamp" = Some (VTime t_stamp)
      ∧ stored !! "expiry_date" = Some (VTime t_expiry)
      ∧ t_stamp = 100
      ∧ t_expiry ≠ 100 + default_expiry Sample.agent
      ∧ t_expiry < t_stamp.
Proof.
  split; [vm_compute; reflexivity|].
  eexists. exists 0, 100.
  split; [vm_compute; reflexivity|].
  repeat split; try (vm_compute; reflexivity).
  vm_compute. discriminate.
Qed.

(** C7, amended.  A successful registration whose payload names neither
    [timestamp] nor [expiry_date] stores the first clock reading as timestamp
    and the second clock reading plus the configured default validity as
    expiry, a representable [datetime]; there is no requested validity.  When
    the clock does not run backwards between the two readings and the default
    validity is not negative, the stored expiry is not earlier than the stored
    timestamp. *)
Theorem register_consent_default_expiry (self : ConsentAgent) (E : env) (user_id : string)
    (consents : gmap string value) (w : world) :
  fst (register_consent self E user_id consents w) = Return true →
  consents !! "timestamp" = None →
  consents !! "expiry_date" = None →
  ∃ stored,
    user_consents (snd (register_consent self E user_id consents w)) !! user_id = Some stored
    ∧ stored !! "timestamp" = Some (VTime (clock E (reads w)))
    ∧ stored !! "expiry_date" = Some (VTime (clock E (S (reads w)) + default_expiry self))
    ∧ representable (clock E (S (reads w)) + default_expiry self) = true
    ∧ (clock E (reads w) ≤ clock E (S (reads w)) → 0 ≤ default_expiry self →
       clock E (reads w) ≤ clock E (S (reads w)) + default_expiry self).
Proof.
  intros Hret Hts Hexp.
  destruct (register_consent_success_inv self E user_id consents w Hret)
    as (Hrange & _ & _ & Hstore).
  eexists. split; [rewrite Hstore; apply lookup_insert_eq|].
  split; [|split; [|split]].
  - rewrite consent_document_lookup_absent by exact Hts. reflexivity.
  - rewrite consent_document_lookup_absent by exact Hexp. reflexivity.
  - exact Hrange.
  - lia.
Qed.

Lemma register_consent_default_expiry_witness :
  ∃ stored,
    user_consents
      (snd (register_consent Sample.agent (Sample.healthy 100) "user123"
              Sample.second_payload Sample.empty_world)) !! "user123" = Some stored
    ∧ stored !! "timestamp" = Some (VTime 100)
    ∧ stored !! "expiry_date" = Some (VTime 465).
Proof.
  destruct (register_consent_default_expiry Sample.agent (Sample.healthy 100) "user123"
              Sample.second_payload Sample.empty_world)
    as (stored & Hstored & Hts & Hexp & _).
  - vm_compute. reflexivity.
  - vm_compute. reflexivity.
  - vm_compute. reflexivity.
  - exists stored. split; [exact Hstored|]. split; [exact Hts | exact Hexp].
Defined.

(** C10.  The payload is spread after the computed fields, so in a successful
    registration every computed field that the payload also names is stored
    with the payload's value.  In particular a payload that names
    [expiry_date] but not [timestamp] stores its own expiry next to the clock
    reading as timestamp, and that expiry may lie before the timestamp.  The
    computed expiry, although discarded, was evaluated first and is a
    representable [datetime]. *)
Theorem register_consent_payload_overrides (self : ConsentAgent) (E : env) (user_id : string)
    (consents : gmap string value) (w : world) :
  fst (register_consent self E user_id consents w) = Return true →
  ∃ stored,
    user_consents (snd (register_consent self E user_id consents w)) !! user_id
    = Some stored
    ∧ (∀ k v, k ∈ computed_fields → consents !! k = Some v → stored !! k = Some v)
    ∧ (∀ t, consents !! "expiry_date" = Some (VTime t) → consents !! "timestamp" = None →
         stored !! "expiry_date" = Some (VTime t)
         ∧ stored !! "timestamp" = Some (VTime (clock E (reads w))))
    ∧ representable (computed_expiry self E w) = true.
Proof.
  intros Hret.
  destruct (register_consent_success_inv self E user_id consents w Hret)
    as (Hrange & _ & _ & Hstore).
  eexists. split; [rewrite Hstore; apply lookup_insert_eq|].
  split; [|split; [|exact Hrange]].
  - intros k v _ Hk. apply consent_document_lookup_supplied. exact Hk.
  - intros t Hexp Hts. split.
    + apply consent_document_lookup_supplied. exact Hexp.
    + rewrite consent_document_lookup_absent by exact Hts. reflexivity.
Qed.

(** Registered at instant 100, the payload [backdated] is stored with expiry
    0, earlier than its timestamp 100. *)
Lemma register_consent_payload_overrides_witness :
  ∃ stored t_expiry t_stamp,
    user_consents
      (snd (register_consent Sample.agent (Sample.healthy 100) "user123" Sample.backdated
              Sample.empty_world)) !! "user123" = Some stored
    ∧ stored !! "expiry_date" = Some (VTime t_expiry)
    ∧ stored !! "timestamp" = Some (VTime t_stamp)
    ∧ t_expiry < t_stamp.
Proof.
  destruct (register_consent_payload_overrides Sample.agent (Sample.healthy 100) "user123"
              Sample.backdated Sample.empty_world)
    as (stored & Hstored & _ & Hover & _).
  - vm_compute. reflexivity.
  - destruct (Hover 0) as [Hexp Hts]; [vm_compute; reflexivity | vm_compute; reflexivity |].
    exists stored, 0, 100. repeat split; [exact Hstored | exact Hexp | exact Hts].
Defined.


(** ** The audit log: [_log_audit] *)

(** C8.  [_log_audit] returns normally whatever the audit sink does, and
    leaves the consent collection alone; when the write to the sink raises,
    the failure ends in the operational log and nowhere else.  A failing sink
    therefore changes neither what [verify_consent] and [register_consent]
    return nor what they leave in the consent collection: both are the same
    as with a healthy sink. *)
Theorem log_audit_never_raises (self : ConsentAgent) (E : env) (fault : option exn)
    (e : exn) (user_id action data_type : string) (success : bool)
    (consents : gmap string value) (w : world) :
  (fst (_log_audit E user_id action success w) = Return tt
   ∧ user_consents (snd (_log_audit E user_id action success w)) = user_consents w)
  ∧ (fst (_log_audit (with_audit_fault E (Some e)) user_id action success w) = Return tt
     ∧ error_log (snd (_log_audit (with_audit_fault E (Some e)) user_id action success w))
       = (error_log w ++ ["Audit logging failed: " +:+ str e])%list
     ∧ consent_audit_logs
         (snd (_log_audit (with_audit_fault E (Some e)) user_id action success w))
       = consent_audit_logs w)
  ∧ (fst (verify_consent (with_audit_fault E fault) user_id data_type w)
     = fst (verify_consent (with_audit_fault E None) user_id data_type w)
     ∧ user_consents (snd (verify_consent (with_audit_fault E fault) user_id data_type w))
       = user_consents (snd (verify_consent (with_audit_fault E None) user_id data_type w)))
  ∧ (fst (register_consent self (with_audit_fault E fault) user_id consents w)
     = fst (register_consent self (with_audit_fault E None) user_id consents w)
     ∧ user_consents
         (snd (register_consent self (with_audit_fault E fault) user_id consents w))
       = user_consents
           (snd (register_consent self (with_audit_fault E None) user_id consents w))).
Proof.
  split; [|split; [|split]].
  - rewrite log_audit_run. simpl. rewrite audit_effect_user_consents. split; reflexivity.
  - rewrite log_audit_run. repeat split.
  - rewrite !verify_consent_run. simpl.
    destruct (get_fault E) as [e'|].
    { destruct (is_GoogleAPICallError e'); split; reflexivity. }
    destruct (user_consents w !! user_id) as [consent_data|];
      [|rewrite !decision_run; simpl; rewrite !audit_effect_user_consents; split; reflexivity].
    destruct (negb (global_flag consent_data));
      [rewrite !decision_run; simpl; rewrite !audit_effect_user_consents; split; reflexivity|].
    destruct (category_denied consent_data data_type);
      [rewrite !decision_run; simpl; rewrite !audit_effect_user_consents; split; reflexivity|].
    destruct (truthy (expiry_date_of consent_data)); [split; reflexivity|].
    rewrite !decision_run; simpl; rewrite !audit_effect_user_consents; split; reflexivity.
  - rewrite !register_consent_run. unfold computed_expiry. simpl.
    destruct (representable (clock E (S (reads w)) + default_expiry self)).
    2:{ simpl. unfold registration_failed. rewrite !audit_effect_user_consents.
        split; reflexivity. }
    destruct (first_missing (required_consents self) consents) as [missing|]; simpl.
    { unfold registration_failed. rewrite !audit_effect_user_consents. split; reflexivity. }
    destruct (set_fault E) as [e'|]; simpl.
    { unfold registration_failed. rewrite !audit_effect_user_consents. split; reflexivity. }
    rewrite !audit_effect_user_consents. split; reflexivity.
Qed.


(** ** The violation responder: [handle_data_violation] *)

(** C9, as stated, fails.  With the HTTP services unreachable the post of the
    halt request raises, the exception leaves [handle_data_violation], and no
    redaction request is made for the redactable category email. *)
Lemma handle_data_violation_counterexample :
  redactable "email" = true
  ∧ fst (handle_data_violation Sample.agent (Sample.network_down 50) "user123" "email"
           Sample.empty_world)
    = Raise (RequestException "Connection refused")
  ∧ posted (snd (handle_data_violation Sample.agent (Sample.network_down 50) "user123"
                   "email" Sample.empty_world))
    = [halt_request Sample.agent "user123"]
  ∧ redact_request Sample.agent "user123" "email"
    ∉ posted (snd (handle_data_violation Sample.agent (Sample.network_down 50) "user123"
                     "email" Sample.empty_world)).
Proof.
  split; [vm_compute; reflexivity|].
  split; [vm_compute; reflexivity|].
  split; [vm_compute; reflexivity|].
  rewrite handle_data_violation_run. simpl.
  intros Hin. apply list_elem_of_singleton in Hin. discriminate Hin.
Qed.

(** C9, amended.  Every invocation first posts the halt request for the user.
    When that post returns, a redaction request for the user and the category
    is posted if and only if the category is email or phone_number, and nothing
    else is posted.  When the halt post raises, the exception reaches the
    caller and nothing further is posted. *)
Theorem handle_data_violation_requests (self : ConsentAgent) (E : env)
    (user_id data_type : string) (w : world) :
  (∃ rest, posted (snd (handle_data_violation self E user_id data_type w))
           = (posted w ++ halt_request self user_id :: rest)%list)
  ∧ (post_fault E (fst (halt_request self user_id)) = None →
     posted (snd (handle_data_violation self E user_id data_type w))
     = (posted w ++ halt_request self user_id
          :: (if redactable data_type then [redact_request self user_id data_type] else []))%list)
  ∧ (∀ e, post_fault E (fst (halt_request self user_id)) = Some e →
     fst (handle_data_violation self E user_id data_type w) = Raise e
     ∧ posted (snd (handle_data_violation self E user_id data_type w))
       = (posted w ++ [halt_request self user_id])%list)
  ∧ (redactable data_type = true ↔ data_type = "email" ∨ data_type = "phone_number").
Proof.
  split; [|split; [|split]].
  - rewrite handle_data_violation_run. simpl.
    destruct (post_fault E _) as [e|]; simpl; [exists []; reflexivity|].
    destruct (redactable data_type); simpl; [|exists []; reflexivity].
    unfold requests_post.
    destruct (post_fault E (format_env (DLP_SERVICE_URL self) +:+ "/redact-data")); simpl;
      eexists; rewrite <- app_assoc; reflexivity.
  - intros Hok. rewrite handle_data_violation_run. simpl. simpl in Hok. rewrite Hok.
    destruct (redactable data_type); simpl; [|reflexivity].
    unfold requests_post.
    destruct (post_fault E (format_env (DLP_SERVICE_URL self) +:+ "/redact-data")); simpl;
      rewrite <- app_assoc; reflexivity.
  - intros e He. rewrite handle_data_violation_run. simpl. simpl in He. rewrite He.
    split; reflexivity.
  - unfold redactable. rewrite bool_decide_eq_true.
    rewrite !elem_of_cons. split.
    + intros [H|[H|H]]; [auto | auto | inversion H].
    + intros [H|H]; auto.
Qed.

(** With every service reachable, a violation on email posts the halt request
    and then the redaction request, and nothing else. *)
Lemma handle_data_violation_requests_witness :
  posted (snd (handle_data_violation Sample.agent (Sample.healthy 50) "user123" "email"
                 Sample.empty_world))
  = [halt_request Sample.agent "user123"; redact_request Sample.agent "user123" "email"].
Proof.
  destruct (handle_data_violation_requests Sample.agent (Sample.healthy 50) "user123" "email"
              Sample.empty_world) as (_ & Hok & _).
  rewrite Hok; reflexivity.
Defined.


(** ** Further properties of the configuration *)

Lemma split_nonempty (sep : ascii) (s : string) : split sep s ≠ [].
Proof.
  destruct s as [|c rest]; simpl; [discriminate|].
  destruct (Ascii.eqb c sep); [discriminate|].
  destruct (split sep rest); discriminate.
Qed.

Lemma join_cons_char (sep c : ascii) (piece : string) (pieces : list string) :
  join sep (String c piece :: pieces) = String c (join sep (piece :: pieces)).
Proof. destruct pieces; reflexivity. Qed.

Lemma join_cons_nonempty (sep : ascii) (piece : string) (pieces : list string) :
  pieces ≠ [] → join sep (piece :: pieces) = piece +:+ String sep (join sep pieces).
Proof. destruct pieces; [congruence | reflexivity]. Qed.

Lemma contains_append (sep : ascii) (s1 s2 : string) :
  contains sep (s1 +:+ s2) = contains sep s1 || contains sep s2.
Proof.
  induction s1 as [|c s1 IH]; simpl; [reflexivity|].
  rewrite IH. apply orb_assoc.
Qed.

Lemma split_without_sep (sep : ascii) (s : string) :
  contains sep s = false → split sep s = [s].
Proof.
  induction s as [|c rest IH]; simpl; [reflexivity|].
  intros H. apply orb_false_iff in H as [Hc Hrest].
  rewrite Hc, (IH Hrest). reflexivity.
Qed.

Lemma split_append_sep (sep : ascii) (piece rest : string) :
  contains sep piece = false →
  split sep (piece +:+ String sep rest) = piece :: split sep rest.
Proof.
  induction piece as [|c piece IH]; simpl.
  - intros _. rewrite Ascii.eqb_refl. reflexivity.
  - intros H. apply orb_false_iff in H as [Hc Hpiece].
    rewrite Hc, (IH Hpiece). reflexivity.
Qed.

(** X1.  [split] loses nothing and invents nothing: joining the pieces with
    the separator gives the string back, and splitting the join of pieces
    that are free of the separator gives the pieces back. *)
Theorem split_join_round_trip (sep : ascii) (s : string) (pieces : list string) :
  join sep (split sep s) = s
  ∧ (pieces ≠ [] → (∀ piece, piece ∈ pieces → contains sep piece = false) →
     split sep (join sep pieces) = pieces).
Proof.
  split.
  - induction s as [|c rest IH]; simpl; [reflexivity|].
    destruct (Ascii.eqb_spec c sep) as [->|Hne].
    + rewrite join_cons_nonempty by apply split_nonempty. rewrite IH. reflexivity.
    + pose proof (split_nonempty sep rest) as Hnon.
      destruct (split sep rest) as [|piece rest'] eqn:Hsplit; [congruence|].
      rewrite join_cons_char, IH. reflexivity.
  - induction pieces as [|piece rest IH]; [congruence|].
    intros _ Hfree.
    assert (Hpiece : contains sep piece = false) by (apply Hfree; constructor).
    destruct rest as [|piece' rest'].
    + simpl. apply split_without_sep. exact Hpiece.
    + rewrite join_cons_nonempty by discriminate.
      rewrite split_append_sep by exact Hpiece.
      rewrite IH; [reflexivity | discriminate |].
      intros p Hp. apply Hfree. constructor. exact Hp.
Qed.

Lemma split_join_round_trip_witness :
  split ","%char (join ","%char ["data_processing"; "marketing"])
  = ["data_processing"; "marketing"].
Proof.
  apply (proj2 (split_join_round_trip ","%char "" ["data_processing"; "marketing"])).
  - discriminate.
  - intros piece Hin.
    apply elem_of_cons in Hin as [->|Hin]; [reflexivity|].
    apply list_elem_of_singleton in Hin as ->. reflexivity.
Defined.

(** X2.  [split] returns one piece more than the string has separators, so
    at least one, and no piece contains the separator: the list of required
    consents read by [__init__] is never empty. *)
Theorem split_pieces (sep : ascii) (s : string) (environ : gmap string string) :
  length (split sep s) = S (count sep s)
  ∧ (∀ piece, piece ∈ split sep s → contains sep piece = false)
  ∧ init_required_consents environ ≠ [].
Proof.
  split; [|split].
  - induction s as [|c rest IH]; simpl; [reflexivity|].
    destruct (Ascii.eqb c sep); simpl; [rewrite IH; reflexivity|].
    destruct (split sep rest); simpl in *; [discriminate IH | exact IH].
  - induction s as [|c rest IH]; simpl.
    + intros piece Hin. apply list_elem_of_singleton in Hin as ->. reflexivity.
    + destruct (Ascii.eqb c sep) eqn:Hc.
      * intros piece Hin. apply elem_of_cons in Hin as [->|Hin]; [reflexivity | auto].
      * pose proof (split_nonempty sep rest) as Hnon.
        destruct (split sep rest) as [|p ps]; [congruence|].
        intros piece Hin. apply elem_of_cons in Hin as [->|Hin].
        -- simpl. rewrite Hc. apply IH. constructor.
        -- apply IH. constructor. exact Hin.
  - apply split_nonempty.
Qed.

Lemma split_pieces_witness :
  length (split ","%char "data_processing,marketing") = 2%nat
  ∧ contains ","%char "marketing" = false.
Proof.
  destruct (split_pieces ","%char "data_processing,marketing" ∅) as (Hlen & Hfree & _).
  split; [exact Hlen|].
  apply Hfree. vm_compute. repeat constructor.
Defined.

(** X3.  Without [REQUIRED_CONSENTS] in the process environment the list of
    required consents is the single empty string, so [register_consent]
    refuses every payload that has no key [''], the payload of the example in
    [__main__] included: it returns [False] and stores nothing, and, when the
    expiry of the new document is representable, the failure logged is the
    missing consent with the empty name. *)
Theorem register_consent_unconfigured (self : ConsentAgent) (environ : gmap string string)
    (E : env) (user_id : string) (consents : gmap string value) (w : world) :
  required_consents self = init_required_consents environ →
  environ !! "REQUIRED_CONSENTS" = None →
  consents !! "" = None →
  required_consents self = [""]
  ∧ fst (register_consent self E user_id consents w) = Return false
  ∧ user_consents (snd (register_consent self E user_id consents w)) = user_consents w
  ∧ (representable (computed_expiry self E w) = true →
     "Consent registration failed: Missing required consent: "
     ∈ error_log (snd (register_consent self E user_id consents w))).
Proof.
  intros Hreq Henv Hkey.
  assert (Hlist : required_consents self = [""]).
  { rewrite Hreq. unfold init_required_consents. rewrite Henv. reflexivity. }
  assert (Hfirst : first_missing (required_consents self) consents = Some "").
  { rewrite Hlist. simpl. rewrite Hkey. reflexivity. }
  split; [exact Hlist|].
  rewrite register_consent_run, Hfirst.
  destruct (representable (computed_expiry self E w)); simpl.
  - split; [reflexivity|]. split; [apply registration_failed_frame|].
    intros _. apply (registration_failed_frame E user_id "Missing required consent: " w).
  - split; [reflexivity|]. split; [apply registration_failed_frame | discriminate].
Qed.

Lemma register_consent_unconfigured_witness :
  fst (register_consent SampleMore.unconfigured (Sample.healthy 50) "user123"
         SampleMore.example_payload Sample.empty_world) = Return false.
Proof.
  destruct (register_consent_unconfigured SampleMore.unconfigured ∅ (Sample.healthy 50)
              "user123" SampleMore.example_payload Sample.empty_world)
    as (_ & Hret & _ & _).
  - reflexivity.
  - reflexivity.
  - vm_compute. reflexivity.
  - exact Hret.
Defined.


(** ** Further properties of [verify_consent] *)

Lemma decision_frame (E : env) (user_id data_type : string) (r : reason) (w : world) :
  fst (decision E user_id data_type r w) = Return (allowed r)
  ∧ user_consents (snd (decision E user_id data_type r w)) = user_consents w
  ∧ posted (snd (decision E user_id data_type r w)) = posted w.
Proof.
  rewrite decision_run. simpl.
  rewrite audit_effect_user_consents, audit_effect_posted. repeat split.
Qed.

(** X4.  [verify_consent] only reads: on every path, failing or not, the
    consent collection and the list of posted HTTP requests are what they
    were. *)
Theorem verify_consent_read_only (E : env) (user_id data_type : string) (w : world) :
  user_consents (snd (verify_consent E user_id data_type w)) = user_consents w
  ∧ posted (snd (verify_consent E user_id data_type w)) = posted w.
Proof.
  rewrite verify_consent_run.
  destruct (get_fault E) as [e|].
  { destruct (is_GoogleAPICallError e); split; reflexivity. }
  destruct (user_consents w !! user_id) as [consent_data|];
    [|split; apply decision_frame].
  destruct (negb (global_flag consent_data)); [split; apply decision_frame|].
  destruct (category_denied consent_data data_type); [split; apply decision_frame|].
  destruct (truthy (expiry_date_of consent_data)); [split; reflexivity|].
  split; apply decision_frame.
Qed.

(** X5.  Only [GoogleAPICallError] is handled: any other exception of the
    lookup leaves [verify_consent] as it was raised, with nothing logged and
    nothing audited. *)
Theorem verify_consent_other_errors_propagate (E : env) (user_id data_type : string)
    (w : world) (e : exn) :
  get_fault E = Some e →
  is_GoogleAPICallError e = false →
  verify_consent E user_id data_type w = (Raise e, w).
Proof.
  intros Hget Hkind. rewrite verify_consent_run, Hget, Hkind. reflexivity.
Qed.

Lemma verify_consent_other_errors_propagate_witness :
  verify_consent (SampleMore.lookup_times_out 50) "user123" "email" Sample.empty_world
  = (Raise (RequestException "Read timed out"), Sample.empty_world).
Proof.
  apply verify_consent_other_errors_propagate; reflexivity.
Defined.

(** X6.  A stored [expiry_date] that is truthy but no instant (the boolean
    [True], a non-empty string) makes the comparison with the clock raise
    [TypeError] once the global and the category rule have passed; the
    exception reaches the caller, and neither the audit collection nor the
    operational log is written. *)
Theorem verify_consent_expiry_type_error (E : env) (user_id data_type : string) (w : world)
    (consent_data : gmap string value) :
  get_fault E = None →
  user_consents w !! user_id = Some consent_data →
  global_flag consent_data = true →
  category_denied consent_data data_type = false →
  truthy (expiry_date_of consent_data) = true →
  (∀ t, expiry_date_of consent_data ≠ VTime t) →
  (∃ msg, fst (verify_consent E user_id data_type w) = Raise (TypeError msg))
  ∧ consent_audit_logs (snd (verify_consent E user_id data_type w)) = consent_audit_logs w
  ∧ error_log (snd (verify_consent E user_id data_type w)) = error_log w.
Proof.
  intros Hget Hdoc Hg Hc Htruthy Hnot.
  rewrite verify_consent_run, Hget, Hdoc, Hg, Hc, Htruthy. simpl.
  split; [|split; reflexivity].
  destruct (expiry_date_of consent_data); simpl; eauto.
Qed.

Lemma verify_consent_expiry_type_error_witness :
  ∃ msg, fst (verify_consent (Sample.healthy 50) "user123" "email"
                (Sample.world_with "user123" SampleMore.expiry_is_bool))
         = Raise (TypeError msg).
Proof.
  destruct (verify_consent_expiry_type_error (Sample.healthy 50) "user123" "email"
              (Sample.world_with "user123" SampleMore.expiry_is_bool)
              SampleMore.expiry_is_bool) as (Hraise & _).
  - reflexivity.
  - vm_compute. reflexivity.
  - vm_compute. reflexivity.
  - vm_compute. reflexivity.
  - vm_compute. reflexivity.
  - intros t. vm_compute. discriminate.
  - exact Hraise.
Defined.

(** X7.  The outcome for a user depends on that user's record and on the
    clock only: two worlds that hold the same record for the user and have
    read the clock equally often give the same result, whatever else the
    consent collection, the audit collection or the logs hold. *)
Theorem verify_consent_frame (E : env) (user_id data_type : string) (w w' : world) :
  user_consents w !! user_id = user_consents w' !! user_id →
  reads w = reads w' →
  fst (verify_consent E user_id data_type w) = fst (verify_consent E user_id data_type w').
Proof.
  intros Hdoc Hreads. rewrite !verify_consent_run, <- Hdoc.
  destruct (get_fault E) as [e|].
  { destruct (is_GoogleAPICallError e); reflexivity. }
  destruct (user_consents w !! user_id) as [consent_data|];
    [|rewrite !decision_run; reflexivity].
  destruct (negb (global_flag consent_data)); [rewrite !decision_run; reflexivity|].
  destruct (category_denied consent_data data_type); [rewrite !decision_run; reflexivity|].
  destruct (truthy (expiry_date_of consent_data)); [reflexivity|].
  rewrite !decision_run; reflexivity.
Qed.

Lemma verify_consent_frame_witness :
  fst (verify_consent (Sample.healthy 50) "user123" "email"
         (Sample.world_with "user123" Sample.granted_until_100))
  = fst (verify_consent (Sample.healthy 50) "user123" "email"
           (set_user_consents (insert "someone_else" Sample.global_off_email_on)
              (Sample.world_with "user123" Sample.granted_until_100))).
Proof.
  apply verify_consent_frame.
  - vm_compute. reflexivity.
  - reflexivity.
Defined.

(** X8.  Whenever the lookup and the audit sink answer and the call returns
    a boolean, the audit trail agrees with the caller: the call has appended
    exactly one entry, for the user asked about, tagged with the service name,
    and its success flag is the boolean returned. *)
Theorem verify_consent_audit_matches_result (E : env) (user_id data_type : string)
    (w : world) (b : bool) :
  get_fault E = None →
  audit_fault E = None →
  fst (verify_consent E user_id data_type w) = Return b →
  ∃ entry,
    consent_audit_logs (snd (verify_consent E user_id data_type w))
    = (consent_audit_logs w ++ [entry])%list
    ∧ entry !! "user_id" = Some (VStr user_id)
    ∧ entry !! "success" = Some (VBool b)
    ∧ entry !! "service" = Some (VStr "consent_agent").
Proof.
  intros Hget Haudit Hret.
  destruct (verify_consent_audits_once E user_id data_type w b Hget Hret)
    as (r & Hrun & <-).
  eexists. rewrite Hrun, decision_run. simpl.
  rewrite audit_effect_healthy by exact Haudit.
  split; [reflexivity|]. unfold audit_entry. repeat split.
Qed.

Lemma verify_consent_audit_matches_result_witness :
  ∃ entry,
    consent_audit_logs
      (snd (verify_consent (Sample.healthy 50) "user123" "email"
              (Sample.world_with "user123" SampleMore.granted_forever)))
    = [entry]
    ∧ entry !! "success" = Some (VBool true).
Proof.
  destruct (verify_consent_audit_matches_result (Sample.healthy 50) "user123" "email"
              (Sample.world_with "user123" SampleMore.granted_forever) true)
    as (entry & Hlogs & _ & Hsuccess & _).
  - reflexivity.
  - reflexivity.
  - vm_compute. reflexivity.
  - exists entry. split; [exact Hlogs | exact Hsuccess].
Defined.


(** ** Further properties of [register_consent] *)

Lemma consent_document_global_flag (user_id : string) (timestamp expiry_date : Z)
    (consents : gmap string value) :
  global_flag (consent_document user_id timestamp expiry_date consents)
  = global_flag consents.
Proof.
  unfold global_flag.
  destruct (consents !! "data_processing") as [v|] eqn:Hk.
  - rewrite (consent_document_lookup_supplied _ _ _ _ _ _ Hk). reflexivity.
  - rewrite consent_document_lookup_other; [reflexivity | exact Hk |].
    unfold computed_fields. intros Hin.
    repeat (apply elem_of_cons in Hin as [Hin|Hin]; [discriminate Hin|]).
    inversion Hin.
Qed.

Lemma consent_document_category_denied (user_id : string) (timestamp expiry_date : Z)
    (consents : gmap string value) (data_type : string) :
  category_denied (consent_document user_id timestamp expiry_date consents) data_type
  = category_denied consents data_type.
Proof.
  unfold category_denied, category_flag.
  destruct (consents !! (data_type +:+ "_consent")) as [v|] eqn:Hk.
  - rewrite (consent_document_lookup_supplied _ _ _ _ _ _ Hk). reflexivity.
  - rewrite consent_document_lookup_other;
      [reflexivity | exact Hk | apply category_key_not_computed].
Qed.

Lemma consent_document_expiry (user_id : string) (timestamp expiry_date : Z)
    (consents : gmap string value) :
  consents !! "expiry_date" = None →
  expiry_date_of (consent_document user_id timestamp expiry_date consents)
  = VTime expiry_date.
Proof.
  intros Hk. unfold expiry_date_of.
  rewrite consent_document_lookup_absent by exact Hk. reflexivity.
Qed.

(** X9.  [register_consent] never raises.  It returns [True] exactly when
    the expiry of the new document is a representable [datetime], every
    required consent is a key of the payload and the write to the consent
    collection succeeds; then the user's record is the new document, and in
    every other case the consent collection is what it was. *)
Theorem register_consent_returns (self : ConsentAgent) (E : env) (user_id : string)
    (consents : gmap string value) (w : world) :
  ∃ b,
    fst (register_consent self E user_id consents w) = Return b
    ∧ (b = true ↔
       representable (computed_expiry self E w) = true
       ∧ (∀ consent, consent ∈ required_consents self → is_Some (consents !! consent))
       ∧ set_fault E = None)
    ∧ (b = true →
       user_consents (snd (register_consent self E user_id consents w)) !! user_id
       = Some (consent_document user_id (clock E (reads w)) (computed_expiry self E w)
                 consents))
    ∧ (b = false →
       user_consents (snd (register_consent self E user_id consents w)) = user_consents w).
Proof.
  rewrite register_consent_run.
  destruct (representable (computed_expiry self E w)).
  2:{ exists false. simpl. split; [reflexivity|]. split; [|split].
      - split; [discriminate|]. intros [H _]. discriminate H.
      - discriminate.
      - intros _. apply registration_failed_frame. }
  destruct (first_missing (required_consents self) consents) as [missing|] eqn:Hfirst.
  { exists false. simpl. split; [reflexivity|]. split; [|split].
    - split; [discriminate|]. intros (_ & Hall & _).
      apply first_missing_None in Hall. congruence.
    - discriminate.
    - intros _. apply registration_failed_frame. }
  destruct (set_fault E) as [e|] eqn:Hset.
  { exists false. simpl. split; [reflexivity|]. split; [|split].
    - split; [discriminate|]. intros (_ & _ & Hnone). discriminate Hnone.
    - discriminate.
    - intros _. apply registration_failed_frame. }
  exists true. simpl. split; [reflexivity|]. split; [|split].
  - split; [|reflexivity]. intros _. split; [reflexivity|]. split; [|reflexivity].
    apply first_missing_None. exact Hfirst.
  - intros _. rewrite audit_effect_user_consents. simpl. apply lookup_insert_eq.
  - discriminate.
Qed.

Lemma register_consent_returns_witness :
  fst (register_consent Sample.agent (Sample.healthy 50) "user123" Sample.first_payload
         Sample.empty_world) = Return true.
Proof.
  destruct (register_consent_returns Sample.agent (Sample.healthy 50) "user123"
              Sample.first_payload Sample.empty_world) as (b & Hret & Hiff & _).
  rewrite Hret. f_equal. apply Hiff. split; [reflexivity|]. split; [|reflexivity].
  intros consent Hin. apply list_elem_of_singleton in Hin as ->.
  vm_compute. eauto.
Defined.

(** X10.  When the expiry of the new document is representable, the
    required consents are present and the write to the consent collection
    raises, registration fails closed: [False] is returned, the consent
    collection is unchanged, the operational log receives the message of the
    error, and with a healthy audit sink exactly one entry tagged failure,
    carrying the same message, is appended to the audit collection. *)
Theorem register_consent_write_failure (self : ConsentAgent) (E : env) (user_id : string)
    (consents : gmap string value) (w : world) (e : exn) :
  representable (computed_expiry self E w) = true →
  (∀ consent, consent ∈ required_consents self → is_Some (consents !! consent)) →
  set_fault E = Some e →
  fst (register_consent self E user_id consents w) = Return false
  ∧ user_consents (snd (register_consent self E user_id consents w)) = user_consents w
  ∧ "Consent registration failed: " +:+ str e
    ∈ error_log (snd (register_consent self E user_id consents w))
  ∧ (audit_fault E = None →
     consent_audit_logs (snd (register_consent self E user_id consents w))
     = (consent_audit_logs w
        ++ [audit_entry user_id (clock E (S (S (reads w))))
              ("Consent registration failed: " +:+ str e) false])%list).
Proof.
  intros Hrange Hreq Hset. apply first_missing_None in Hreq.
  rewrite register_consent_run, Hrange, Hreq, Hset. simpl.
  split; [reflexivity|].
  destruct (registration_failed_frame E user_id (str e) w) as [Hstore Hlog].
  split; [exact Hstore|]. split; [exact Hlog|].
  intros Haudit. unfold registration_failed.
  rewrite audit_effect_healthy by exact Haudit. reflexivity.
Qed.

Lemma register_consent_write_failure_witness :
  fst (register_consent Sample.agent (SampleMore.write_down 50) "user123"
         Sample.first_payload Sample.empty_world) = Return false
  ∧ user_consents
      (snd (register_consent Sample.agent (SampleMore.write_down 50) "user123"
              Sample.first_payload Sample.empty_world)) = ∅.
Proof.
  destruct (register_consent_write_failure Sample.agent (SampleMore.write_down 50) "user123"
              Sample.first_payload Sample.empty_world
              (GoogleAPICallError "503 Service Unavailable")) as (Hret & Hstore & _).
  - reflexivity.
  - intros consent Hin. apply list_elem_of_singleton in Hin as ->.
    vm_compute. eauto.
  - reflexivity.
  - split; [exact Hret | exact Hstore].
Defined.

(** X11.  Unlike [verify_consent], [register_consent] audits on every path:
    with a healthy audit sink each call appends exactly one entry for the
    user, and its success flag is the boolean the call returns. *)
Theorem register_consent_audits_once (self : ConsentAgent) (E : env) (user_id : string)
    (consents : gmap string value) (w : world) :
  audit_fault E = None →
  ∃ b entry,
    fst (register_consent self E user_id consents w) = Return b
    ∧ consent_audit_logs (snd (register_consent self E user_id consents w))
      = (consent_audit_logs w ++ [entry])%list
    ∧ entry !! "user_id" = Some (VStr user_id)
    ∧ entry !! "success" = Some (VBool b).
Proof.
  intros Haudit. rewrite register_consent_run.
  destruct (representable (computed_expiry self E w)).
  2:{ exists false. eexists. simpl. unfold registration_failed.
      rewrite audit_effect_healthy by exact Haudit.
      split; [reflexivity|]. split; [reflexivity|]. split; reflexivity. }
  destruct (first_missing (required_consents self) consents) as [missing|].
  { exists false. eexists. simpl. unfold registration_failed.
    rewrite audit_effect_healthy by exact Haudit.
    split; [reflexivity|]. split; [reflexivity|]. split; reflexivity. }
  destruct (set_fault E) as [e|].
  { exists false. eexists. simpl. unfold registration_failed.
    rewrite audit_effect_healthy by exact Haudit.
    split; [reflexivity|]. split; [reflexivity|]. split; reflexivity. }
  exists true. eexists. simpl.
  rewrite audit_effect_healthy by exact Haudit.
  split; [reflexivity|]. split; [reflexivity|]. split; reflexivity.
Qed.

Lemma register_consent_audits_once_witness :
  ∃ entry,
    consent_audit_logs
      (snd (register_consent Sample.agent (Sample.healthy 50) "user123"
              Sample.marketing_only Sample.empty_world)) = [entry]
    ∧ entry !! "success" = Some (VBool false).
Proof.
  destruct (register_consent_audits_once Sample.agent (Sample.healthy 50) "user123"
              Sample.marketing_only Sample.empty_world eq_refl)
    as (b & entry & Hret & Hlogs & _ & Hsuccess).
  exists entry. split; [exact Hlogs|].
  rewrite Hsuccess. vm_compute in Hret. injection Hret as <-. reflexivity.
Defined.

(** X12.  Registration touches one record only: whatever the outcome, the
    record of every other user is what it was. *)
Theorem register_consent_frame (self : ConsentAgent) (E : env) (user_id other : string)
    (consents : gmap string value) (w : world) :
  other ≠ user_id →
  user_consents (snd (register_consent self E user_id consents w)) !! other
  = user_consents w !! other.
Proof.
  intros Hne. rewrite register_consent_run.
  destruct (representable (computed_expiry self E w)).
  2:{ simpl. destruct (registration_failed_frame E user_id "date value out of range" w)
        as [-> _]. reflexivity. }
  destruct (first_missing (required_consents self) consents) as [missing|].
  { simpl. destruct (registration_failed_frame E user_id
                       ("Missing required consent: " +:+ missing) w) as [-> _].
    reflexivity. }
  destruct (set_fault E) as [e|].
  { simpl. destruct (registration_failed_frame E user_id (str e) w) as [-> _].
    reflexivity. }
  simpl. rewrite audit_effect_user_consents. simpl.
  apply lookup_insert_ne. congruence.
Qed.

Lemma register_consent_frame_witness :
  user_consents
    (snd (register_consent Sample.agent (Sample.healthy 60) "someone_else"
            Sample.second_payload Sample.after_first)) !! "user123"
  = user_consents Sample.after_first !! "user123".
Proof.
  apply register_consent_frame. discriminate.
Defined.

(** X13.  Registration and verification do not compose.  After a
    successful registration whose payload grants [data_processing], does not
    withhold the key of the category ([data_type] followed by [_consent]) and
    leaves [expiry_date] to be computed, [verify_consent] for that category
    does not return: the stored expiry comes back timezone-aware, its
    comparison with the naive clock reading raises [TypeError] at every
    instant, and nothing is audited. *)
Theorem register_then_verify (self : ConsentAgent) (E1 E2 : env) (user_id data_type : string)
    (consents : gmap string value) (w : world) :
  fst (register_consent self E1 user_id consents w) = Return true →
  get_fault E2 = None →
  global_flag consents = true →
  category_denied consents data_type = false →
  consents !! "expiry_date" = None →
  let w1 := snd (register_consent self E1 user_id consents w) in
  verify_consent E2 user_id data_type w1
  = (Raise (TypeError "can't compare offset-naive and offset-aware datetimes"), tick w1).
Proof.
  intros Hret Hget Hglobal Hcat Hexp w1.
  destruct (register_consent_success_inv self E1 user_id consents w Hret)
    as (_ & _ & _ & Hstore).
  rewrite verify_consent_run, Hget. unfold w1 at 1. rewrite Hstore, lookup_insert_eq.
  rewrite consent_document_global_flag, Hglobal. simpl.
  rewrite consent_document_category_denied, Hcat.
  rewrite consent_document_expiry by exact Hexp. reflexivity.
Qed.

Lemma register_then_verify_witness :
  fst (verify_consent (Sample.healthy 60) "user123" "marketing"
         (snd (register_consent Sample.agent (Sample.healthy 50) "user123"
                 SampleMore.example_payload Sample.empty_world)))
  = Raise (TypeError "can't compare offset-naive and offset-aware datetimes").
Proof.
  rewrite (register_then_verify Sample.agent (Sample.healthy 50) (Sample.healthy 60)
             "user123" "marketing" SampleMore.example_payload Sample.empty_world).
  - reflexivity.
  - vm_compute. reflexivity.
  - reflexivity.
  - vm_compute. reflexivity.
  - vm_compute. reflexivity.
  - vm_compute. reflexivity.
Defined.

(** X14.  The validation asks for the presence of the required keys, not
    for consent: when the expiry of the new document is representable, a
    payload whose [data_processing] is present but not granted registers
    successfully, and from then on [verify_consent] denies every category of
    that user with the global reason. *)
Theorem register_withheld_then_verify (self : ConsentAgent) (E1 E2 : env)
    (user_id data_type : string) (consents : gmap string value) (w : world) :
  representable (computed_expiry self E1 w) = true →
  set_fault E1 = None →
  (∀ consent, consent ∈ required_consents self → is_Some (consents !! consent)) →
  get_fault E2 = None →
  global_flag consents = false →
  fst (register_consent self E1 user_id consents w) = Return true
  ∧ verify_consent E2 user_id data_type (snd (register_consent self E1 user_id consents w))
    = decision E2 user_id data_type GLOBAL_DENIED
        (snd (register_consent self E1 user_id consents w)).
Proof.
  intros Hrange Hset Hreq Hget Hglobal.
  destruct (register_consent_success self E1 user_id consents w Hrange Hset Hreq)
    as [Hret Hstore].
  split; [exact Hret|].
  rewrite verify_consent_run, Hget, Hstore, lookup_insert_eq.
  rewrite consent_document_global_flag, Hglobal. reflexivity.
Qed.

Lemma register_withheld_then_verify_witness :
  fst (register_consent Sample.agent (Sample.healthy 50) "user123"
         SampleMore.global_withheld Sample.empty_world) = Return true
  ∧ fst (verify_consent (Sample.healthy 60) "user123" "email"
           (snd (register_consent Sample.agent (Sample.healthy 50) "user123"
                   SampleMore.global_withheld Sample.empty_world)))
    = Return false.
Proof.
  destruct (register_withheld_then_verify Sample.agent (Sample.healthy 50)
              (Sample.healthy 60) "user123" "email" SampleMore.global_withheld
              Sample.empty_world) as [Hret Hverify].
  - reflexivity.
  - reflexivity.
  - intros consent Hin. apply list_elem_of_singleton in Hin as ->. vm_compute. eauto.
  - reflexivity.
  - vm_compute. reflexivity.
  - split; [exact Hret|]. rewrite Hverify, decision_run. reflexivity.
Defined.

Lemma first_missing_app (present : list string) (consent : string) (later : list string)
    (consents : gmap string value) :
  (∀ c, c ∈ present → is_Some (consents !! c)) →
  consents !! consent = None →
  first_missing (present ++ consent :: later) consents = Some consent.
Proof.
  induction present as [|c present IH]; simpl; intros Hpresent Hmiss.
  - rewrite Hmiss. reflexivity.
  - destruct (Hpresent c) as [v Hv]; [constructor|]. rewrite Hv.
    apply IH; [|exact Hmiss]. intros c' Hc'. apply Hpresent. constructor. exact Hc'.
Qed.

(** X15.  When the expiry of the new document is representable, the
    validation stops at the first required consent that is missing, in the
    order of the configured list: the failure message names that one only,
    whatever else is missing after it, and with a healthy audit sink the
    operational log and the audit collection each receive exactly that
    message. *)
Theorem register_consent_names_first_missing (self : ConsentAgent) (E : env)
    (user_id : string) (consents : gmap string value) (w : world)
    (present : list string) (consent : string) (later : list string) :
  representable (computed_expiry self E w) = true →
  required_consents self = (present ++ consent :: later)%list →
  (∀ c, c ∈ present → is_Some (consents !! c)) →
  consents !! consent = None →
  audit_fault E = None →
  error_log (snd (register_consent self E user_id consents w))
  = (error_log w
     ++ ["Consent registration failed: " +:+ ("Missing required consent: " +:+ consent)])%list
  ∧ consent_audit_logs (snd (register_consent self E user_id consents w))
    = (consent_audit_logs w
       ++ [audit_entry user_id (clock E (S (S (reads w))))
             ("Consent registration failed: " +:+ ("Missing required consent: " +:+ consent))
             false])%list.
Proof.
  intros Hrange Hlist Hpresent Hmiss Haudit.
  rewrite register_consent_run, Hrange, Hlist,
    (first_missing_app _ _ _ _ Hpresent Hmiss).
  simpl. unfold registration_failed.
  rewrite audit_effect_healthy by exact Haudit.
  unfold audit_effect. rewrite Haudit. split; reflexivity.
Qed.

Lemma register_consent_names_first_missing_witness :
  error_log
    (snd (register_consent
            {| required_consents := ["data_processing"; "marketing"; "analytics"];
               default_expiry := 365;
               DATA_DETECTIVE_SERVICE_URL := None;
               DLP_SERVICE_URL := None |}
            (Sample.healthy 50) "user123" Sample.first_payload Sample.empty_world))
  = ["Consent registration failed: Missing required consent: marketing"].
Proof.
  refine (proj1 (register_consent_names_first_missing
                   {| required_consents := ["data_processing"; "marketing"; "analytics"];
                      default_expiry := 365;
                      DATA_DETECTIVE_SERVICE_URL := None;
                      DLP_SERVICE_URL := None |}
                   (Sample.healthy 50) "user123" Sample.first_payload Sample.empty_world
                   ["data_processing"] "marketing" ["analytics"] eq_refl eq_refl _ _ eq_refl)).
  - intros c Hin. apply list_elem_of_singleton in Hin as ->. vm_compute. eauto.
  - vm_compute. reflexivity.
Defined.


(** ** The audit trail and the violation responder *)

Lemma audit_effect_appends (E : env) (u a : string) (s : bool) (w : world) :
  ∃ new, consent_audit_logs (audit_effect E u a s w) = (consent_audit_logs w ++ new)%list
         ∧ (length new ≤ 1)%nat.
Proof.
  unfold audit_effect. destruct (audit_fault E); simpl.
  - exists []. rewrite app_nil_r. split; [reflexivity | simpl; lia].
  - eexists [_]. split; [reflexivity | simpl; lia].
Qed.

(** X16.  The audit collection is append-only.  Whatever the collaborators
    do, [_log_audit], [verify_consent] and [register_consent] keep every
    existing entry, in order, and add at most one entry per call;
    [handle_data_violation] adds none. *)
Theorem audit_trail_append_only (self : ConsentAgent) (E : env)
    (user_id action data_type : string) (success : bool) (consents : gmap string value)
    (w : world) :
  (∃ new, consent_audit_logs (snd (_log_audit E user_id action success w))
          = (consent_audit_logs w ++ new)%list ∧ (length new ≤ 1)%nat)
  ∧ (∃ new, consent_audit_logs (snd (verify_consent E user_id data_type w))
            = (consent_audit_logs w ++ new)%list ∧ (length new ≤ 1)%nat)
  ∧ (∃ new, consent_audit_logs (snd (register_consent self E user_id consents w))
            = (consent_audit_logs w ++ new)%list ∧ (length new ≤ 1)%nat)
  ∧ consent_audit_logs (snd (handle_data_violation self E user_id data_type w))
    = consent_audit_logs w.
Proof.
  assert (Hnone : ∃ new : list (gmap string value),
             consent_audit_logs w = (consent_audit_logs w ++ new)%list
             ∧ (length new ≤ 1)%nat).
  { exists []. rewrite app_nil_r. split; [reflexivity | simpl; lia]. }
  split; [|split; [|split]].
  - rewrite log_audit_run. apply audit_effect_appends.
  - rewrite verify_consent_run.
    destruct (get_fault E) as [e|].
    { destruct (is_GoogleAPICallError e); exact Hnone. }
    destruct (user_consents w !! user_id) as [consent_data|];
      [|rewrite decision_run; apply audit_effect_appends].
    destruct (negb (global_flag consent_data));
      [rewrite decision_run; apply audit_effect_appends|].
    destruct (category_denied consent_data data_type);
      [rewrite decision_run; apply audit_effect_appends|].
    destruct (truthy (expiry_date_of consent_data)); [exact Hnone|].
    rewrite decision_run; apply audit_effect_appends.
  - rewrite register_consent_run.
    destruct (representable (computed_expiry self E w)).
    2:{ simpl. unfold registration_failed.
        apply (audit_effect_appends E user_id _ false (add_error _ (tick (tick w)))). }
    destruct (first_missing (required_consents self) consents) as [missing|]; simpl.
    { unfold registration_failed.
      apply (audit_effect_appends E user_id _ false (add_error _ (tick (tick w)))). }
    destruct (set_fault E) as [e|]; simpl.
    { unfold registration_failed.
      apply (audit_effect_appends E user_id _ false (add_error _ (tick (tick w)))). }
    apply (audit_effect_appends E user_id _ true
             (set_user_consents _ (tick (tick w)))).
  - rewrite handle_data_violation_run. simpl.
    destruct (post_fault E _) as [e|]; [reflexivity|].
    destruct (redactable data_type); [|reflexivity].
    unfold requests_post.
    destruct (post_fault E (format_env (DLP_SERVICE_URL self) +:+ "/redact-data"));
      reflexivity.
Qed.

(** X17.  [handle_data_violation] acts on the HTTP services only: it never
    writes the consent collection nor the operational log, and it posts one
    or two requests, each of them the halt request of the user or the
    redaction request of the user and category. *)
Theorem handle_data_violation_effects (self : ConsentAgent) (E : env)
    (user_id data_type : string) (w : world) :
  user_consents (snd (handle_data_violation self E user_id data_type w)) = user_consents w
  ∧ error_log (snd (handle_data_violation self E user_id data_type w)) = error_log w
  ∧ ∃ new,
      posted (snd (handle_data_violation self E user_id data_type w))
      = (posted w ++ new)%list
      ∧ (1 ≤ length new ≤ 2)%nat
      ∧ (∀ request, request ∈ new →
           request = halt_request self user_id
           ∨ request = redact_request self user_id data_type).
Proof.
  rewrite handle_data_violation_run. simpl.
  destruct (post_fault E _) as [e|].
  { split; [reflexivity|]. split; [reflexivity|].
    eexists [_]. split; [reflexivity|]. split; [simpl; lia|].
    intros request Hin. apply list_elem_of_singleton in Hin as ->. left. reflexivity. }
  destruct (redactable data_type).
  2:{ split; [reflexivity|]. split; [reflexivity|].
      eexists [_]. split; [reflexivity|]. split; [simpl; lia|].
      intros request Hin. apply list_elem_of_singleton in Hin as ->. left. reflexivity. }
  unfold requests_post.
  destruct (post_fault E (format_env (DLP_SERVICE_URL self) +:+ "/redact-data")); simpl;
    (split; [reflexivity|]; split; [reflexivity|];
     eexists [_; _]; split; [rewrite <- app_assoc; reflexivity|];
     split; [simpl; lia|];
     intros request Hin; apply elem_of_cons in Hin as [->|Hin];
     [left; reflexivity
     |apply list_elem_of_singleton in Hin as ->; right; reflexivity]).
Qed.

Lemma handle_data_violation_effects_witness :
  ∃ new, posted (snd (handle_data_violation Sample.agent (Sample.network_down 50) "user123"
                        "address" Sample.empty_world)) = new
         ∧ (∀ request, request ∈ new →
              request = halt_request Sample.agent "user123"
              ∨ request = redact_request Sample.agent "user123" "address").
Proof.
  destruct (handle_data_violation_effects Sample.agent (Sample.network_down 50) "user123"
              "address" Sample.empty_world) as (_ & _ & new & Hposted & _ & Hkinds).
  exists new. split; [exact Hposted | exact Hkinds].
Defined.

(** X18.  [handle_data_violation] handles no exception: it returns normally
    exactly when no post it makes raises.  When the halt post returns and the
    redaction post of a redactable category raises, both requests have been
    posted and the exception reaches the caller. *)
Theorem handle_data_violation_outcome (self : ConsentAgent) (E : env)
    (user_id data_type : string) (w : world) :
  (fst (handle_data_violation self E user_id data_type w) = Return tt ↔
   post_fault E (fst (halt_request self user_id)) = None
   ∧ (redactable data_type = true →
      post_fault E (fst (redact_request self user_id data_type)) = None))
  ∧ (∀ e, post_fault E (fst (halt_request self user_id)) = None →
          redactable data_type = true →
          post_fault E (fst (redact_request self user_id data_type)) = Some e →
          fst (handle_data_violation self E user_id data_type w) = Raise e
          ∧ posted (snd (handle_data_violation self E user_id data_type w))
            = (posted w ++ [halt_request self user_id;
                            redact_request self user_id data_type])%list).
Proof.
  rewrite handle_data_violation_run. simpl. split.
  - destruct (post_fault E _) as [e|].
    { split; [discriminate | intros [H _]; discriminate H]. }
    destruct (redactable data_type).
    2:{ split; [intros _; split; [reflexivity | discriminate] | reflexivity]. }
    unfold requests_post.
    destruct (post_fault E (format_env (DLP_SERVICE_URL self) +:+ "/redact-data")); simpl.
    + split; [discriminate | intros [_ H]; discriminate (H eq_refl)].
    + split; [intros _; split; reflexivity | reflexivity].
  - intros e Hhalt Hred Hfault. rewrite Hhalt, Hred.
    unfold requests_post. simpl in Hfault. rewrite Hfault. simpl.
    rewrite <- app_assoc. split; reflexivity.
Qed.

Lemma handle_data_violation_outcome_witness :
  fst (handle_data_violation Sample.agent (Sample.healthy 50) "user123" "email"
         Sample.empty_world) = Return tt.
Proof.
  apply (proj1 (handle_data_violation_outcome Sample.agent (Sample.healthy 50) "user123"
                  "email" Sample.empty_world)).
  split; [reflexivity | intros _; reflexivity].
Defined.


(** ** The bucket scan: [DataDetectiveAgent.scan_bucket] *)

Lemma endswith_unfold (name suffix : string) :
  Detective.endswith name suffix
  = String.eqb name suffix
    || match name with
       | EmptyString => false
       | String _ rest => Detective.endswith rest suffix
       end.
Proof. destruct name; reflexivity. Qed.

Lemma endswith_spec (name suffix : string) :
  Detective.endswith name suffix = true ↔ ∃ prefix, name = prefix +:+ suffix.
Proof.
  split.
  - induction name as [|c rest IH]; rewrite endswith_unfold; intros H;
      apply orb_true_iff in H as [H|H].
    + apply String.eqb_eq in H. exists "". exact H.
    + discriminate H.
    + apply String.eqb_eq in H. exists "". exact H.
    + destruct (IH H) as [prefix ->]. exists (String c prefix). reflexivity.
  - intros [prefix ->]. induction prefix as [|c prefix IH].
    + rewrite endswith_unfold. change ("" +:+ suffix) with suffix.
      rewrite String.eqb_refl. reflexivity.
    + rewrite endswith_unfold.
      change (String c prefix +:+ suffix) with (String c (prefix +:+ suffix)).
      cbv iota. rewrite IH. apply orb_true_r.
Qed.

(** X19.  A blob is scanned exactly when its name ends in [.txt], [.csv] or
    [.json], compared character by character (so [.TXT] does not count, and a
    blob named just [.csv] does). *)
Theorem scannable_spec (name : string) :
  Detective.scannable name = true ↔
  ∃ prefix, name = prefix +:+ ".txt" ∨ name = prefix +:+ ".csv" ∨ name = prefix +:+ ".json".
Proof.
  unfold Detective.scannable. simpl. rewrite orb_false_r, !orb_true_iff, !endswith_spec.
  split.
  - intros [[p H]|[[p H]|[p H]]]; exists p; auto.
  - intros [p [H|[H|H]]]; [left | right; left | right; right]; exists p; exact H.
Qed.

Section ScanFacts.
Variable likelihood : Type.
Variable likelihood_str : likelihood → string.
Variable E : Detective.denv likelihood.

Lemma scan_blob_run (name : string) (w : Detective.dworld) :
  Detective.scan_blob likelihood likelihood_str E name w =
  if Detective.scannable name then
    match Detective.download_as_text E name with
    | Raise e => (Raise e, Detective.add_download name w)
    | Return content =>
        let w' := Detective.add_inspection content (Detective.add_download name w) in
        match Detective.inspect_content E content with
        | Raise e => (Raise e, w')
        | Return [] => (Return tt, w')
        | Return (f :: fs) =>
            match Detective.report_fault E name with
            | Some e => (Raise e, w')
            | None =>
                (Return tt,
                 Detective.set_privacy_scans
                   (insert name (Detective.report_of likelihood likelihood_str (f :: fs))) w')
            end
        end
    end
  else (Return tt, w).
Proof.
  unfold Detective.scan_blob.
  destruct (Detective.scannable name); [|reflexivity].
  unfold mbind, Detective.DM_bind, Detective.blob_download, Detective._inspect_content,
    Detective._log_findings, Detective._check_consent, mret, Detective.DM_ret.
  destruct (Detective.download_as_text E name) as [content|e]; [|reflexivity].
  destruct (Detective.inspect_content E content) as [[|f fs]|e]; simpl; try reflexivity.
  destruct (Detective.report_fault E name); reflexivity.
Qed.

Lemma scan_blobs_cons (name : string) (rest : list string) (w : Detective.dworld) :
  Detective.scan_blobs likelihood likelihood_str E (name :: rest) w =
  match Detective.scan_blob likelihood likelihood_str E name w with
  | (Return _, w') => Detective.scan_blobs likelihood likelihood_str E rest w'
  | (Raise e, w') => (Raise e, w')
  end.
Proof.
  simpl. unfold mbind, Detective.DM_bind.
  destruct (Detective.scan_blob likelihood likelihood_str E name w) as [[[]|e] w'];
    reflexivity.
Qed.

Lemma scan_bucket_run (w : Detective.dworld) :
  Detective.scan_bucket likelihood likelihood_str E w =
  match Detective.list_blobs E with
  | Raise e => (Return tt, Detective.add_scan_error ("Scan failed: " +:+ str e) w)
  | Return blobs =>
      match Detective.scan_blobs likelihood likelihood_str E blobs w with
      | (Return _, w') => (Return tt, w')
      | (Raise e, w') =>
          (Return tt, Detective.add_scan_error ("Scan failed: " +:+ str e) w')
      end
  end.
Proof.
  unfold Detective.scan_bucket, Detective.try_except_Exception, mbind, Detective.DM_bind,
    Detective.get_bucket_blobs.
  destruct (Detective.list_blobs E) as [blobs|e]; [|reflexivity].
  destruct (Detective.scan_blobs likelihood likelihood_str E blobs w) as [[[]|e] w'];
    reflexivity.
Qed.

(** One blob: the log is untouched, the blob is downloaded when scannable,
    and a report changes only under the blob's own name. *)
Lemma scan_blob_effects (name : string) (w : Detective.dworld) :
  let r := Detective.scan_blob likelihood likelihood_str E name w in
  Detective.scan_error_log (snd r) = Detective.scan_error_log w
  ∧ Detective.downloads (snd r)
    = (Detective.downloads w ++ if Detective.scannable name then [name] else [])%list
  ∧ (fst r ≠ Return tt → Detective.scannable name = true)
  ∧ (∀ n, Detective.privacy_scans (snd r) !! n = Detective.privacy_scans w !! n
          ∨ (n = name ∧ Detective.scannable name = true
             ∧ ∃ f fs, Detective.findings_of likelihood E name = Some (f :: fs)
                       ∧ Detective.privacy_scans (snd r) !! n
                         = Some (Detective.report_of likelihood likelihood_str (f :: fs)))).
Proof.
  intros r. unfold r. rewrite scan_blob_run. unfold Detective.findings_of.
  destruct (Detective.scannable name).
  2:{ simpl. rewrite app_nil_r. repeat split; auto; congruence. }
  destruct (Detective.download_as_text E name) as [content|e]; simpl;
    [|repeat split; auto].
  destruct (Detective.inspect_content E content) as [[|f fs]|e]; simpl;
    [repeat split; auto | | repeat split; auto].
  destruct (Detective.report_fault E name); simpl; [repeat split; auto|].
  split; [reflexivity|]. split; [reflexivity|]. split; [reflexivity|].
  intros n. destruct (decide (n = name)) as [->|Hne].
  - right. split; [reflexivity|]. split; [reflexivity|].
    exists f, fs. split; [reflexivity|]. apply lookup_insert_eq.
  - left. apply lookup_insert_ne. congruence.
Qed.

(** X20.  [scan_bucket] never raises, whatever the storage, the classifier
    and the report store do, and it writes the operational log only on
    failure: either the log is untouched, or exactly one [Scan failed]
    message was appended. *)
Theorem scan_bucket_never_raises (w : Detective.dworld) :
  fst (Detective.scan_bucket likelihood likelihood_str E w) = Return tt
  ∧ (Detective.scan_error_log (snd (Detective.scan_bucket likelihood likelihood_str E w))
     = Detective.scan_error_log w
     ∨ ∃ e, Detective.scan_error_log
              (snd (Detective.scan_bucket likelihood likelihood_str E w))
            = (Detective.scan_error_log w ++ ["Scan failed: " +:+ str e])%list).
Proof.
  assert (Hlog : ∀ blobs w0,
             Detective.scan_error_log
               (snd (Detective.scan_blobs likelihood likelihood_str E blobs w0))
             = Detective.scan_error_log w0).
  { induction blobs as [|name rest IH]; intros w0; [reflexivity|].
    rewrite scan_blobs_cons.
    destruct (scan_blob_effects name w0) as (Hl & _).
    destruct (Detective.scan_blob likelihood likelihood_str E name w0) as [[[]|e] w'];
      simpl in *; [rewrite IH|]; exact Hl. }
  rewrite scan_bucket_run.
  destruct (Detective.list_blobs E) as [blobs|e]; simpl; [|split; eauto].
  specialize (Hlog blobs w).
  destruct (Detective.scan_blobs likelihood likelihood_str E blobs w) as [[[]|e] w'];
    simpl in *; split; try reflexivity; [left; exact Hlog|].
  right. exists e. rewrite Hlog. reflexivity.
Qed.

Lemma scan_blobs_app (before after : list string) (w : Detective.dworld) :
  Detective.scan_blobs likelihood likelihood_str E (before ++ after) w =
  match Detective.scan_blobs likelihood likelihood_str E before w with
  | (Return _, w') => Detective.scan_blobs likelihood likelihood_str E after w'
  | (Raise e, w') => (Raise e, w')
  end.
Proof.
  revert w. induction before as [|name rest IH]; intros w; [reflexivity|].
  change ((name :: rest) ++ after)%list with (name :: (rest ++ after))%list.
  rewrite !scan_blobs_cons.
  destruct (Detective.scan_blob likelihood likelihood_str E name w) as [[[]|e] w'];
    [apply IH | reflexivity].
Qed.

Lemma scan_blob_healthy (name : string) (w : Detective.dworld) :
  Detective.blob_healthy likelihood E name →
  fst (Detective.scan_blob likelihood likelihood_str E name w) = Return tt.
Proof.
  unfold Detective.blob_healthy, Detective.findings_of. rewrite scan_blob_run.
  destruct (Detective.scannable name); [|reflexivity].
  intros H. destruct (H eq_refl) as (findings & Hfind & Hset).
  destruct (Detective.download_as_text E name) as [content|e]; [|discriminate].
  simpl. destruct (Detective.inspect_content E content) as [[|f fs]|e];
    [reflexivity | | discriminate].
  injection Hfind as <-. rewrite Hset by discriminate. reflexivity.
Qed.

Lemma scan_blobs_healthy (blobs : list string) (w : Detective.dworld) :
  (∀ name, name ∈ blobs → Detective.blob_healthy likelihood E name) →
  fst (Detective.scan_blobs likelihood likelihood_str E blobs w) = Return tt.
Proof.
  revert w. induction blobs as [|name rest IH]; intros w Hall; [reflexivity|].
  rewrite scan_blobs_cons.
  pose proof (scan_blob_healthy name w (Hall name ltac:(constructor))) as Hok.
  destruct (Detective.scan_blob likelihood likelihood_str E name w) as [[[]|e] w'];
    [|discriminate Hok].
  apply IH. intros n Hn. apply Hall. constructor. exact Hn.
Qed.

Lemma scan_blobs_downloads (blobs : list string) (w : Detective.dworld) :
  ∃ new rest,
    Detective.downloads (snd (Detective.scan_blobs likelihood likelihood_str E blobs w))
    = (Detective.downloads w ++ new)%list
    ∧ List.filter Detective.scannable blobs = (new ++ rest)%list
    ∧ (fst (Detective.scan_blobs likelihood likelihood_str E blobs w) = Return tt →
       rest = []).
Proof.
  revert w. induction blobs as [|name blobs IH]; intros w.
  { exists [], []. simpl. rewrite app_nil_r. auto. }
  rewrite scan_blobs_cons.
  destruct (scan_blob_effects name w) as (_ & Hdown & Hraise & _).
  destruct (Detective.scan_blob likelihood likelihood_str E name w) as [[[]|e] w'];
    simpl in *.
  - destruct (IH w') as (new & rest & Hnew & Hfilter & Hdone).
    exists ((if Detective.scannable name then [name] else []) ++ new)%list, rest.
    rewrite Hnew, Hdown, <- app_assoc. split; [reflexivity|].
    split; [|exact Hdone].
    destruct (Detective.scannable name); simpl; rewrite Hfilter; reflexivity.
  - rewrite Hraise by discriminate. rewrite Hraise in Hdown by discriminate.
    exists [name], (List.filter Detective.scannable blobs).
    split; [exact Hdown|]. split; [reflexivity | discriminate].
Qed.

(** X21.  The scan downloads scannable blobs only, in the order of the
    listing and each at most once per listing entry: the names downloaded
    form an initial part of the scannable names of the bucket, and all of
    them when every blob is healthy.  When the listing itself fails nothing
    is downloaded. *)
Theorem scan_bucket_downloads (w : Detective.dworld) :
  (∀ e, Detective.list_blobs E = Raise e →
     Detective.downloads (snd (Detective.scan_bucket likelihood likelihood_str E w))
     = Detective.downloads w)
  ∧ (∀ blobs, Detective.list_blobs E = Return blobs →
     ∃ new rest,
       Detective.downloads (snd (Detective.scan_bucket likelihood likelihood_str E w))
       = (Detective.downloads w ++ new)%list
       ∧ List.filter Detective.scannable blobs = (new ++ rest)%list
       ∧ ((∀ name, name ∈ blobs → Detective.blob_healthy likelihood E name) →
          rest = [])).
Proof.
  split.
  - intros e He. rewrite scan_bucket_run, He. reflexivity.
  - intros blobs Hblobs. rewrite scan_bucket_run, Hblobs.
    destruct (scan_blobs_downloads blobs w) as (new & rest & Hnew & Hfilter & Hdone).
    pose proof (scan_blobs_healthy blobs w) as Hhealthy.
    exists new, rest.
    destruct (Detective.scan_blobs likelihood likelihood_str E blobs w) as [[[]|e] w'];
      simpl in *; (split; [exact Hnew|]); (split; [exact Hfilter|]); intros Hall.
    + apply Hdone. reflexivity.
    + discriminate (Hhealthy Hall).
Qed.

(** X22.  A failure ends the scan.  When the listing raises, or when the
    scan of an initial part of the listing raises, [scan_bucket] logs the
    error and stops in the world reached at that point: the blobs listed
    after the failure are neither downloaded nor inspected nor reported. *)
Theorem scan_bucket_stops_at_failure (w : Detective.dworld) :
  (∀ e, Detective.list_blobs E = Raise e →
     Detective.scan_bucket likelihood likelihood_str E w
     = (Return tt, Detective.add_scan_error ("Scan failed: " +:+ str e) w))
  ∧ (∀ before after e,
       Detective.list_blobs E = Return (before ++ after)%list →
       fst (Detective.scan_blobs likelihood likelihood_str E before w) = Raise e →
       Detective.scan_bucket likelihood likelihood_str E w
       = (Return tt,
          Detective.add_scan_error ("Scan failed: " +:+ str e)
            (snd (Detective.scan_blobs likelihood likelihood_str E before w)))).
Proof.
  split.
  - intros e He. rewrite scan_bucket_run, He. reflexivity.
  - intros before after e Hblobs Hraise.
    rewrite scan_bucket_run, Hblobs, scan_blobs_app.
    destruct (Detective.scan_blobs likelihood likelihood_str E before w) as [[[]|e'] w'];
      simpl in *; [discriminate Hraise|].
    injection Hraise as ->. reflexivity.
Qed.

Lemma scan_blobs_reports (blobs : list string) (w : Detective.dworld) (n : string) :
  Detective.privacy_scans (snd (Detective.scan_blobs likelihood likelihood_str E blobs w)) !! n
  = Detective.privacy_scans w !! n
  ∨ (n ∈ blobs ∧ Detective.scannable n = true
     ∧ ∃ f fs, Detective.findings_of likelihood E n = Some (f :: fs)
               ∧ Detective.privacy_scans
                   (snd (Detective.scan_blobs likelihood likelihood_str E blobs w)) !! n
                 = Some (Detective.report_of likelihood likelihood_str (f :: fs))).
Proof.
  revert w. induction blobs as [|name blobs IH]; intros w; [left; reflexivity|].
  rewrite scan_blobs_cons.
  destruct (scan_blob_effects name w) as (_ & _ & _ & Hstep).
  specialize (Hstep n).
  destruct (Detective.scan_blob likelihood likelihood_str E name w) as [[[]|e] w'];
    simpl in *.
  - destruct (IH w') as [Hsame|(Hin & Hscan & f & fs & Hfind & Hset)].
    + rewrite Hsame. destruct Hstep as [Hstep|(-> & Hscan & f & fs & Hfind & Hset)];
        [left; exact Hstep|].
      right. split; [constructor|]. split; [exact Hscan|]. eauto.
    + right. split; [constructor; exact Hin|]. split; [exact Hscan|]. eauto.
  - destruct Hstep as [Hstep|(-> & Hscan & f & fs & Hfind & Hset)]; [left; exact Hstep|].
    right. split; [constructor|]. split; [exact Hscan|]. eauto.
Qed.

(** X23.  Whatever happens during a scan, a report is only ever written,
    never removed, and only for a scannable blob of the listing for which the
    classifier returned at least one finding; then it is the report of those
    findings.  Every other document of [privacy_scans] is what it was. *)
Theorem scan_bucket_reports (w : Detective.dworld) (n : string) :
  Detective.privacy_scans (snd (Detective.scan_bucket likelihood likelihood_str E w)) !! n
  = Detective.privacy_scans w !! n
  ∨ (∃ blobs, Detective.list_blobs E = Return blobs ∧ n ∈ blobs)
    ∧ Detective.scannable n = true
    ∧ ∃ f fs, Detective.findings_of likelihood E n = Some (f :: fs)
              ∧ Detective.privacy_scans
                  (snd (Detective.scan_bucket likelihood likelihood_str E w)) !! n
                = Some (Detective.report_of likelihood likelihood_str (f :: fs)).
Proof.
  rewrite scan_bucket_run.
  destruct (Detective.list_blobs E) as [blobs|e]; [|left; reflexivity].
  destruct (scan_blobs_reports blobs w n) as [Hsame|(Hin & Hscan & f & fs & Hfind & Hset)];
    destruct (Detective.scan_blobs likelihood likelihood_str E blobs w) as [[[]|e] w'];
    simpl in *; try (left; exact Hsame);
    (right; split; [eauto|]; split; [exact Hscan|]; eauto).
Qed.

End ScanFacts.

Section ScanResult.
Variable likelihood : Type.
Variable likelihood_str : likelihood → string.
Variable E : Detective.denv likelihood.

Lemma reported_cons (name : string) (rest : list string) (n : string)
    (old : option Detective.scan_report) :
  match Detective.reported likelihood likelihood_str E (name :: rest) n with
  | Some r => Some r
  | None => old
  end
  = match Detective.reported likelihood likelihood_str E rest n with
    | Some r => Some r
    | None =>
        match Detective.reported likelihood likelihood_str E [name] n with
        | Some r => Some r
        | None => old
        end
    end.
Proof.
  unfold Detective.reported.
  destruct (Detective.scannable n); [|rewrite !andb_false_r; reflexivity].
  rewrite !andb_true_r.
  repeat case_bool_decide;
    try (exfalso; rewrite ?elem_of_cons, ?elem_of_nil in *; tauto);
    destruct (Detective.findings_of likelihood E n) as [[|f fs]|]; reflexivity.
Qed.

Lemma scan_blob_healthy_reports (name : string) (w : Detective.dworld) (n : string) :
  Detective.blob_healthy likelihood E name →
  Detective.privacy_scans (snd (Detective.scan_blob likelihood likelihood_str E name w)) !! n
  = match Detective.reported likelihood likelihood_str E [name] n with
    | Some r => Some r
    | None => Detective.privacy_scans w !! n
    end.
Proof.
  unfold Detective.blob_healthy, Detective.reported. intros Hhealthy.
  rewrite scan_blob_run.
  case_bool_decide as Hin.
  - apply list_elem_of_singleton in Hin as ->.
    destruct (Detective.scannable name); [|reflexivity].
    destruct (Hhealthy eq_refl) as (findings & Hfind & Hset).
    rewrite Hfind. unfold Detective.findings_of in Hfind. simpl.
    destruct (Detective.download_as_text E name) as [content|e]; [|discriminate].
    destruct (Detective.inspect_content E content) as [[|f fs]|e]; [| |discriminate];
      injection Hfind as <-; [reflexivity|].
    rewrite Hset by discriminate. simpl. apply lookup_insert_eq.
  - simpl. rewrite list_elem_of_singleton in Hin.
    destruct (Detective.scannable name); [|reflexivity].
    destruct (Hhealthy eq_refl) as (findings & Hfind & Hset).
    unfold Detective.findings_of in Hfind.
    destruct (Detective.download_as_text E name) as [content|e]; [|discriminate].
    simpl. destruct (Detective.inspect_content E content) as [[|f fs]|e];
      [reflexivity| |discriminate].
    injection Hfind as <-. rewrite Hset by discriminate. simpl.
    apply lookup_insert_ne. congruence.
Qed.

Lemma scan_blobs_healthy_reports (blobs : list string) (w : Detective.dworld) (n : string) :
  (∀ name, name ∈ blobs → Detective.blob_healthy likelihood E name) →
  Detective.privacy_scans (snd (Detective.scan_blobs likelihood likelihood_str E blobs w)) !! n
  = match Detective.reported likelihood likelihood_str E blobs n with
    | Some r => Some r
    | None => Detective.privacy_scans w !! n
    end.
Proof.
  revert w. induction blobs as [|name rest IH]; intros w Hall.
  { unfold Detective.reported. case_bool_decide as Hin; [inversion Hin | reflexivity]. }
  assert (Hname : Detective.blob_healthy likelihood E name) by (apply Hall; constructor).
  rewrite scan_blobs_cons, reported_cons.
  pose proof (scan_blob_healthy likelihood likelihood_str E name w Hname) as Hok.
  pose proof (scan_blob_healthy_reports name w n Hname) as Hstep.
  destruct (Detective.scan_blob likelihood likelihood_str E name w) as [[[]|e] w'];
    [|discriminate Hok].
  simpl in Hstep. rewrite IH, Hstep; [reflexivity|].
  intros m Hm. apply Hall. constructor. exact Hm.
Qed.

Lemma scan_blobs_error_log (blobs : list string) (w : Detective.dworld) :
  Detective.scan_error_log (snd (Detective.scan_blobs likelihood likelihood_str E blobs w))
  = Detective.scan_error_log w.
Proof.
  revert w. induction blobs as [|name rest IH]; intros w; [reflexivity|].
  rewrite scan_blobs_cons.
  destruct (scan_blob_effects likelihood likelihood_str E name w) as (Hl & _).
  destruct (Detective.scan_blob likelihood likelihood_str E name w) as [[[]|e] w'];
    simpl in *; [rewrite IH|]; exact Hl.
Qed.

(** X24.  When the listing answers and every blob is healthy, the scan ends
    without a log message, and [privacy_scans] holds, under the name of each
    scannable blob with at least one finding, the report of its findings
    (replacing any older report of that name); blobs without findings and
    names outside the listing keep what they had. *)
Theorem scan_bucket_healthy (w : Detective.dworld) (blobs : list string) :
  Detective.list_blobs E = Return blobs →
  (∀ name, name ∈ blobs → Detective.blob_healthy likelihood E name) →
  Detective.scan_error_log (snd (Detective.scan_bucket likelihood likelihood_str E w))
  = Detective.scan_error_log w
  ∧ ∀ n,
      Detective.privacy_scans
        (snd (Detective.scan_bucket likelihood likelihood_str E w)) !! n
      = match Detective.reported likelihood likelihood_str E blobs n with
        | Some r => Some r
        | None => Detective.privacy_scans w !! n
        end.
Proof.
  intros Hblobs Hall.
  pose proof (scan_blobs_healthy likelihood likelihood_str E blobs w Hall) as Hok.
  pose proof (λ n, scan_blobs_healthy_reports blobs w n Hall) as Hreports.
  pose proof (scan_blobs_error_log blobs w) as Hlog.
  rewrite scan_bucket_run, Hblobs.
  destruct (Detective.scan_blobs likelihood likelihood_str E blobs w) as [[[]|e] w'];
    [|discriminate Hok].
  simpl in *. split; [exact Hlog | exact Hreports].
Qed.

End ScanResult.

Lemma scannable_spec_witness : Detective.scannable "notes.txt" = true.
Proof.
  apply (proj2 (scannable_spec "notes.txt")). exists "notes". left. reflexivity.
Defined.

Lemma bucket_env_healthy (name : string) :
  name ∈ ["notes.txt"; "photo.png"; "table.csv"] →
  Detective.blob_healthy nat SampleMore.bucket_env name.
Proof.
  intros Hin. unfold Detective.blob_healthy.
  apply elem_of_cons in Hin as [->|Hin]; [|apply elem_of_cons in Hin as [->|Hin]].
  - intros _. exists [SampleMore.an_email]. split; [reflexivity | intros _; reflexivity].
  - intros Hscan. vm_compute in Hscan. discriminate Hscan.
  - apply list_elem_of_singleton in Hin as ->.
    intros _. exists []. split; [reflexivity | intros H; destruct (H eq_refl)].
Qed.

Lemma scan_bucket_downloads_witness :
  Detective.downloads
    (snd (Detective.scan_bucket nat SampleMore.likelihood_str SampleMore.bucket_env
            SampleMore.fresh))
  = ["notes.txt"; "table.csv"].
Proof.
  destruct (proj2 (scan_bucket_downloads nat SampleMore.likelihood_str SampleMore.bucket_env
                     SampleMore.fresh)
              ["notes.txt"; "photo.png"; "table.csv"] eq_refl)
    as (new & rest & Hnew & Hfilter & Hall).
  rewrite (Hall bucket_env_healthy), app_nil_r in Hfilter.
  rewrite Hnew, <- Hfilter. reflexivity.
Defined.

Lemma scan_bucket_stops_at_failure_witness :
  Detective.scan_bucket nat SampleMore.likelihood_str SampleMore.failing_bucket_env
    SampleMore.fresh
  = (Return tt,
     Detective.add_scan_error "Scan failed: Connection reset"
       (Detective.add_download "notes.txt" SampleMore.fresh)).
Proof.
  apply (proj2 (scan_bucket_stops_at_failure nat SampleMore.likelihood_str
                  SampleMore.failing_bucket_env SampleMore.fresh)
           ["notes.txt"] ["photo.png"; "table.csv"] (RequestException "Connection reset")).
  - reflexivity.
  - vm_compute. reflexivity.
Defined.

Lemma scan_bucket_healthy_witness :
  Detective.privacy_scans
    (snd (Detective.scan_bucket nat SampleMore.likelihood_str SampleMore.bucket_env
            SampleMore.fresh)) !! "notes.txt"
  = Some (Detective.report_of nat SampleMore.likelihood_str [SampleMore.an_email])
  ∧ Detective.privacy_scans
      (snd (Detective.scan_bucket nat SampleMore.likelihood_str SampleMore.bucket_env
              SampleMore.fresh)) !! "table.csv"
    = None.
Proof.
  destruct (scan_bucket_healthy nat SampleMore.likelihood_str SampleMore.bucket_env
              SampleMore.fresh ["notes.txt"; "photo.png"; "table.csv"] eq_refl
              bucket_env_healthy) as [_ Hreports].
  split; rewrite Hreports; vm_compute; reflexivity.
Defined.
